(** * A shallow embedding of [scripts/build.py]

    The static site generator is a linear pipeline: read, parse front
    matter, derive title / slug / date, render, write.  This file embeds
    the functions of [scripts/build.py] and states their contracts.

    Conventions.
    - A Python [str] is a Rocq [string]; a character is a code point
      below 256 (the Latin-1 range), which is what [ascii] holds.  The
      text functions work on [list ascii] and are wrapped to [string].
    - Library calls ([yaml.safe_load], [datetime.fromisoformat],
      [markdown], file contents) are parameters of the sections that use
      them; the pieces of [re], [str], [list.sort] and Jinja2 that the
      claims depend on are written out.
    - A raised exception is the left injection of [result]. *)

From Stdlib Require Import ZArith NArith Ascii String List Lia Bool.
From Stdlib Require Import Sorted Permutation.
From stdpp Require Import gmap strings list sorting pretty.

Import ListNotations.
Local Open Scope list_scope.

Set Default Proof Using "Type".

(** ** Exceptions and results *)

Inductive exn : Type :=
| ValueError
| TypeError
| AttributeError
| KeyError
| FileNotFoundError
| YAMLError
| TemplateNotFound
| UndefinedError.

Definition result (A : Type) : Type := exn + A.

Definition Ok {A} (a : A) : result A := inr a.
Definition Raise {A} (e : exn) : result A := inl e.

Definition rbind {A B} (r : result A) (k : A -> result B) : result B :=
  match r with
  | inl e => inl e
  | inr a => k a
  end.

Definition raises {A} (r : result A) : Prop := exists e, r = inl e.
Definition returns {A} (r : result A) : Prop := exists a, r = inr a.

(** ** Python strings *)

Module PyStr.

Definition str := list ascii.

Definition code (c : ascii) : N := N_of_ascii c.

Definition between (lo hi : N) (c : ascii) : bool :=
  ((lo <=? code c) && (code c <=? hi))%N.

Definition is_lower_az (c : ascii) : bool := between 97 122 c.
Definition is_upper_az (c : ascii) : bool := between 65 90 c.
Definition is_digit (c : ascii) : bool := between 48 57 c.
Definition is_hyphen (c : ascii) : bool := (code c =? 45)%N.

(** [str.lower] on code points below 256: the ASCII capitals and the
    Latin-1 capitals U+00C0..U+00DE (but not the multiplication sign
    U+00D7) move up by 32; everything else is unchanged. *)
Definition lower_char (c : ascii) : ascii :=
  if is_upper_az c || (between 192 222 c && negb (code c =? 215)%N)
  then ascii_of_N (code c + 32)
  else c.

Definition lower (s : str) : str := map lower_char s.

(** [str.isspace] on code points below 256. *)
Definition is_space (c : ascii) : bool :=
  between 9 13 c || between 28 32 c || (code c =? 133)%N || (code c =? 160)%N.

Fixpoint take_while (p : ascii -> bool) (s : str) : str :=
  match s with
  | [] => []
  | c :: r => if p c then c :: take_while p r else []
  end.

Fixpoint drop_while (p : ascii -> bool) (s : str) : str :=
  match s with
  | [] => []
  | c :: r => if p c then drop_while p r else s
  end.

(** [s.lstrip(chars)], [s.rstrip(chars)], [s.strip(chars)] with the
    character set given as a predicate. *)
Definition lstrip (p : ascii -> bool) (s : str) : str := drop_while p s.
Definition rstrip (p : ascii -> bool) (s : str) : str :=
  rev (drop_while p (rev s)).
Definition strip (p : ascii -> bool) (s : str) : str := rstrip p (lstrip p s).

(** [s.startswith(prefix)] *)
Fixpoint startswith (s prefix : str) : bool :=
  match prefix, s with
  | [], _ => true
  | _ :: _, [] => false
  | p :: prefix', c :: s' => Ascii.eqb p c && startswith s' prefix'
  end.

(** [s.partition(sep)] cut at the leftmost occurrence of [sep]:
    [Some (before, after)], or [None] when [sep] does not occur. *)
Fixpoint cut (sep s : str) : option (str * str) :=
  if startswith s sep then Some ([], drop (length sep) s)
  else match s with
       | [] => None
       | c :: r =>
           match cut sep r with
           | Some (a, b) => Some (c :: a, b)
           | None => None
           end
       end.

(** [s.split(sep, maxsplit)] for a non-empty [sep]: at most [maxsplit]
    cuts, each at the leftmost occurrence in what is left. *)
Fixpoint split (sep : str) (maxsplit : nat) (s : str) : list str :=
  match maxsplit with
  | O => [s]
  | S n =>
      match cut sep s with
      | None => [s]
      | Some (a, b) => a :: split sep n b
      end
  end.

(** [s.split()] without arguments: the maximal runs of non-whitespace
    characters.  [cur] is the token being read, in reverse. *)
Fixpoint split_ws_aux (cur : str) (s : str) : list str :=
  match s with
  | [] => match cur with [] => [] | _ => [rev cur] end
  | c :: r =>
      if is_space c
      then match cur with
           | [] => split_ws_aux [] r
           | _ => rev cur :: split_ws_aux [] r
           end
      else split_ws_aux (c :: cur) r
  end.

Definition split_ws (s : str) : list str := split_ws_aux [] s.

(** Comparison of strings: lexicographic on code points. *)
Fixpoint ltb (a b : str) : bool :=
  match a, b with
  | _, [] => false
  | [], _ :: _ => true
  | x :: a', y :: b' =>
      if (code x <? code y)%N then true
      else if (code y <? code x)%N then false
      else ltb a' b'
  end.

End PyStr.

(** ** The two regular expressions of the script *)

Module Re.
Import PyStr.

(** A pattern is given by its matcher: [m s = Some n] when the pattern
    matches at the start of [s] and the (greedy) match has [n]
    characters.  Both patterns of the script match only non-empty
    text. *)
Definition matcher := str -> option nat.

(** [C+] for a character class [C]: the maximal run of class
    characters, when there is at least one. *)
Definition match_plus (cls : ascii -> bool) : matcher :=
  fun s =>
    match length (take_while cls s) with
    | O => None
    | n => Some n
    end.

(** [<[^>]+>]: an opening bracket, the maximal run of characters other
    than the closing bracket (at least one), and the closing bracket.
    A shorter run is followed by a character that is not the closing
    bracket, so backtracking finds nothing else. *)
Definition not_gt (c : ascii) : bool := negb (code c =? 62)%N.

Definition match_tag : matcher :=
  fun s =>
    match s with
    | c :: r =>
        if (code c =? 60)%N then
          let body := take_while not_gt r in
          match body, drop (length body) r with
          | _ :: _, d :: _ =>
              if (code d =? 62)%N then Some (2 + length body) else None
          | _, _ => None
          end
        else None
    | [] => None
    end.

(** [re.sub(pattern, repl, s)]: scan from the left; where the pattern
    matches, emit [repl] and resume after the match; elsewhere copy
    one character.  [skip] counts the characters of the current match
    that are still to be passed over. *)
Fixpoint sub_from (m : matcher) (repl : str) (skip : nat) (s : str) : str :=
  match s with
  | [] => []
  | c :: r =>
      match skip with
      | S k => sub_from m repl k r
      | O =>
          match m s with
          | Some (S k) => repl ++ sub_from m repl k r
          | _ => c :: sub_from m repl O r
          end
      end
  end.

Definition sub (m : matcher) (repl : str) (s : str) : str :=
  sub_from m repl O s.

End Re.

(** ** Slug derivation (line 99 of the script) *)

Module Slug.
Import PyStr.

(** The characters outside the class [[^a-z0-9-]]. *)
Definition keep (c : ascii) : bool :=
  is_lower_az c || is_digit c || is_hyphen c.

Definition hyphen : ascii := "-"%char.

(** [re.sub(r"[^a-z0-9-]+", "-", title.lower()).strip("-")] *)
Definition slugify_chars (title : str) : str :=
  strip is_hyphen
    (Re.sub (Re.match_plus (fun c => negb (keep c))) [hyphen] (lower title)).

Definition slugify (title : string) : string :=
  string_of_list_ascii (slugify_chars (list_ascii_of_string title)).

End Slug.

(** ** Reading time (lines 47-53) *)

Module ReadingTime.
Import PyStr.

(** [re.sub(r'<[^>]+>', '', text)] *)
Definition strip_tags (text : str) : str := Re.sub Re.match_tag [] text.

(** [len(clean_text.split())] *)
Definition word_count (text : str) : Z :=
  Z.of_nat (length (split_ws (strip_tags text))).

(** [round(n / d)] for integers [n >= 0] and [d > 0]: Python 3 divides
    to a float and rounds it to the nearest integer, a tie going to the
    even neighbour.  For the word counts of a document the quotient by
    200 is computed exactly enough for the rounding to be that of the
    rational [n / d]: a tie [k + 1/2] is a float, and any other
    quotient is at least [1/200] away from a tie. *)
Definition py_round_div (n d : Z) : Z :=
  let q := (n / d)%Z in
  let r := (n mod d)%Z in
  if (2 * r <? d)%Z then q
  else if (d <? 2 * r)%Z then (q + 1)%Z
  else if Z.even q then q else (q + 1)%Z.

(** [max(1, round(words / 200))] *)
Definition minutes_of (words : Z) : Z := Z.max 1 (py_round_div words 200).

Definition calculate_reading_time_chars (text : str) : Z * Z :=
  let words := word_count text in
  (words, minutes_of words).

Definition calculate_reading_time (text : string) : Z * Z :=
  calculate_reading_time_chars (list_ascii_of_string text).

End ReadingTime.

(** ** Python values met in front matter and in the site configuration *)

(** What [yaml.safe_load] puts under a key: [None], a string, or some
    other object (a number, a boolean, a date, a list, a nested
    mapping).  Of the last kind the script only uses the truth value and
    the [str()] text, so that is what [VObj] records. *)
Inductive pyval : Type :=
| VNone
| VStr (s : string)
| VObj (truth : bool) (text : string).

Definition truthy (v : pyval) : bool :=
  match v with
  | VNone => false
  | VStr s => negb (String.eqb s EmptyString)
  | VObj t _ => t
  end.

(** [str(v)] *)
Definition py_str (v : pyval) : string :=
  match v with
  | VNone => "None"
  | VStr s => s
  | VObj _ t => t
  end.

(** [a or b] *)
Definition py_or (a b : pyval) : pyval := if truthy a then a else b.

(** A loaded YAML document: a mapping, seen through its string keys, or
    any other value. *)
Inductive document : Type :=
| DMap (m : gmap string pyval)
| DVal (v : pyval).

(** [doc or {}]: a mapping keeps its entries (an empty one is replaced
    by an empty one); any other value stays when it is truthy. *)
Definition doc_or_empty (d : document) : document :=
  match d with
  | DMap m => DMap m
  | DVal v => if truthy v then DVal v else DMap ∅
  end.

(** [d.get(key)] and [d.get(key, default)]: an attribute of mappings
    only. *)
Definition doc_get (d : document) (key : string) (dflt : pyval) : result pyval :=
  match d with
  | DMap m => Ok (default dflt (m !! key))
  | DVal _ => Raise AttributeError
  end.

(** [d[key]] *)
Definition doc_item (d : document) (key : string) : result pyval :=
  match d with
  | DMap m => match m !! key with Some v => Ok v | None => Raise KeyError end
  | DVal _ => Raise TypeError
  end.

(** ** Front matter (lines 18-23) *)

Module FrontMatter.
Import PyStr.

Definition delimiter : str := list_ascii_of_string "---".

Section Parser.
(** [yaml.safe_load], which raises on malformed input. *)
Variable safe_load : string -> result document.

Definition parse_frontmatter (text : string) : result (document * string) :=
  let t := list_ascii_of_string text in
  if startswith t delimiter then
    match split delimiter 2 t with
    | [_; fm; body] =>
        rbind (safe_load (string_of_list_ascii fm)) (fun data =>
        Ok (doc_or_empty data, string_of_list_ascii (strip is_space body)))
    | _ => Raise ValueError
    end
  else Ok (DMap ∅, text).
End Parser.

End FrontMatter.

(** ** [list.sort] and [sorted] *)

Module PySort.
Section Sort.
Context {A K : Type}.
(** [<] on keys, which may raise. *)
Variable lt : K -> K -> result bool.
Variable key : A -> K.

(** One step of the insertion phase: [x] goes in front of the first
    element that is greater, that is to the right of the elements
    equal to it. *)
Fixpoint insert (x : A) (l : list A) : result (list A) :=
  match l with
  | [] => Ok [x]
  | y :: l' =>
      rbind (lt (key x) (key y)) (fun b =>
      if b : bool then Ok (x :: y :: l')
      else rbind (insert x l') (fun r => Ok (y :: r)))
  end.

Fixpoint insert_all (acc : list A) (l : list A) : result (list A) :=
  match l with
  | [] => Ok acc
  | x :: r => rbind (insert x acc) (fun acc' => insert_all acc' r)
  end.

(** The ascending stable sort. *)
Definition sort_asc (l : list A) : result (list A) := insert_all [] l.

(** [l.sort(key=key, reverse=reverse)]: with [reverse] the list is
    reversed, sorted ascending and reversed again, which keeps equal
    elements in their original order. *)
Definition sort (reverse : bool) (l : list A) : result (list A) :=
  if reverse
  then rbind (sort_asc (rev l)) (fun r => Ok (rev r))
  else sort_asc l.
End Sort.

(** The order a sort is measured against: a total [ltb] on keys. *)
Section Order.
Context {A K : Type}.
Variable ltb : K -> K -> bool.
Variable key : A -> K.

(** [x] is not after [y]. *)
Definition le (x y : A) : Prop := ltb (key y) (key x) = false.

(** The key of [y] is neither before nor after [k]. *)
Definition same (k : K) (y : A) : bool :=
  negb (ltb k (key y)) && negb (ltb (key y) k).
End Order.
End PySort.

(** ** Dates, post summaries and template contexts *)

(** A [datetime] object, by what the script observes of it: its place on
    the time line (what [<] compares; for an aware value after the UTC
    offset is taken off), whether it carries a time zone, and its three
    renderings. *)
Record datetime : Type := mk_datetime {
  dt_instant : Z;
  dt_aware : bool;
  dt_human : string;     (* dt.strftime("%b %d, %Y") *)
  dt_iso_date : string;  (* dt.date().isoformat() *)
  dt_rfc2822 : string    (* email.utils.format_datetime(dt) *)
}.

(** [a < b] on datetimes: a naive and an aware value do not compare. *)
Definition dt_lt (a b : datetime) : result bool :=
  if Bool.eqb (dt_aware a) (dt_aware b)
  then Ok (dt_instant a <? dt_instant b)%Z
  else Raise TypeError.

(** The order of datetimes that compare. *)
Definition dt_ltb (a b : datetime) : bool := (dt_instant a <? dt_instant b)%Z.

(** The dictionary appended to [posts] (lines 125-133). *)
Record summary : Type := mk_summary {
  title : string;
  slug : pyval;
  date : datetime;
  iso_date : string;
  human_date : string;
  rfc2822 : string;
  description : pyval
}.

(** A value bound to a name in a template context. *)
Inductive ctxval : Type :=
| CVal (v : pyval)
| CInt (n : Z)
| CPosts (ps : list summary).

(** ** Jinja2, as far as [render] (lines 55-63) depends on it *)

Module Jinja.

(** The fragment of the template language that looks names up. *)
Inductive node : Type :=
| Text (s : string)                      (* literal text *)
| Var (name : string)                    (* {{ name }} *)
| VarDefault (name : string) (d : string) (* {{ name | default(d) }} *)
| Attr (name attr : string).             (* {{ name.attr }} *)

Definition template := list node.

Section Render.
(** How a value prints in a template (its text, escaped where
    auto-escaping applies) and what its attributes are. *)
Variable show : ctxval -> string.
Variable getattr : ctxval -> string -> option ctxval.

(** The environment is built without an [undefined] argument, so a
    missing name is Jinja2's default [Undefined]: it prints as the
    empty string and the [default] filter replaces it, but taking an
    attribute of it raises.  A missing attribute of a value that
    exists is [Undefined] again. *)
Definition render_node (ctx : gmap string ctxval) (n : node) : result string :=
  match n with
  | Text s => Ok s
  | Var x =>
      match ctx !! x with
      | Some v => Ok (show v)
      | None => Ok EmptyString
      end
  | VarDefault x d =>
      match ctx !! x with
      | Some v => Ok (show v)
      | None => Ok d
      end
  | Attr x a =>
      match ctx !! x with
      | Some v =>
          match getattr v a with
          | Some w => Ok (show w)
          | None => Ok EmptyString
          end
      | None => Raise UndefinedError
      end
  end.

Fixpoint render_nodes (ctx : gmap string ctxval) (t : template) : result string :=
  match t with
  | [] => Ok EmptyString
  | n :: t' =>
      rbind (render_node ctx n) (fun s =>
      rbind (render_nodes ctx t') (fun r => Ok (s ++ r)%string))
  end.

(** [env.get_template(tpl)] with a [FileSystemLoader]: the templates
    directory maps names to templates. *)
Definition get_template (loader : gmap string template) (tpl : string)
  : result template :=
  match loader !! tpl with
  | Some t => Ok t
  | None => Raise TemplateNotFound
  end.

(** [render(tpl, **ctx)] *)
Definition render (loader : gmap string template) (tpl : string)
    (ctx : list (string * ctxval)) : result string :=
  rbind (get_template loader tpl) (fun t =>
  render_nodes (list_to_map ctx) t).
End Render.

End Jinja.

(** ** Effects: the file-system trace of a run *)

(** A path under the repository root, as the segments joined with [/]. *)
Definition path := list string.

Definition joinpath (p : path) (segment : string) : path := p ++ [segment].
Infix "</>" := joinpath (at level 40, left associativity).

Inductive event : Type :=
| EvRmtree (p : path)
| EvMkdir (p : path)
| EvCopy (src dst : path)
| EvWrite (p : path) (content : string)
| EvBuilt (n : nat).   (* the closing line "Built n posts" *)

(** A builder runs on the trace so far and either returns or raises. *)
Definition M (A : Type) : Type := list event -> result A * list event.

Definition ret {A} (a : A) : M A := fun tr => (Ok a, tr).
Definition bind {A B} (c : M A) (k : A -> M B) : M B :=
  fun tr =>
    match c tr with
    | (inl e, tr') => (inl e, tr')
    | (inr a, tr') => k a tr'
    end.
Definition lift {A} (r : result A) : M A := fun tr => (r, tr).
Definition emit (ev : event) : M unit := fun tr => (Ok tt, tr ++ [ev]).

Declare Scope build_scope.
Delimit Scope build_scope with build.
Notation "x <- c ;; k" := (bind c (fun x => k))
  (at level 100, c at next level, right associativity) : build_scope.
Notation "c ;; k" := (bind c (fun _ => k))
  (at level 100, right associativity) : build_scope.

(** What the script calls and does not define. *)
Record Lib : Type := mk_lib {
  safe_load : string -> result document;       (* yaml.safe_load *)
  fromisoformat : string -> result datetime;   (* datetime.datetime.fromisoformat *)
  md_to_html : string -> string;               (* markdown.markdown with the extensions *)
  show : ctxval -> string;                     (* printing in a template *)
  getattr : ctxval -> string -> option ctxval  (* attribute lookup in a template *)
}.

(** What a run finds on disk and on the clock. *)
Record Inputs : Type := mk_inputs {
  site_yml : option string;              (* site.yml, when present *)
  about_md : option string;              (* about.md, when present *)
  posts_glob : list (string * string);   (* posts/*.md: name and text, as globbed *)
  static_styles : bool;                  (* static/styles.css exists *)
  static_404 : bool;                     (* static/404.html exists *)
  dist_exists : bool;
  templates : gmap string Jinja.template;
  today_iso : string;                    (* datetime.date.today().isoformat() *)
  today_year : Z
}.

Module Build.
Import PyStr.
Local Open Scope build_scope.
Local Open Scope string_scope.

Definition DIST : path := ["dist"].

(** The separator of line 112, an em dash between spaces (here in its
    UTF-8 bytes, being outside the Latin-1 range). *)
Definition title_sep : string := " — ".

(** [a + b] on values: defined on two strings. *)
Definition str_add (a b : pyval) : result pyval :=
  match a, b with
  | VStr x, VStr y => Ok (VStr (x ++ y))
  | _, _ => Raise TypeError
  end.

(** [s.rfind(".")] *)
Fixpoint rfind_dot (s : str) : option nat :=
  match s with
  | [] => None
  | c :: r =>
      match rfind_dot r with
      | Some i => Some (S i)
      | None => if (code c =? 46)%N then Some O else None
      end
  end.

(** [Path.stem]: the name up to its last dot, unless that dot is the
    first or the last character. *)
Definition stem (name : string) : string :=
  let s := list_ascii_of_string name in
  match rfind_dot s with
  | Some i =>
      if (0 <? i)%nat && (i <? length s - 1)%nat
      then string_of_list_ascii (take i s)
      else name
  | None => name
  end.

Section Run.
Variable L : Lib.
Variable I : Inputs.

Definition render (tpl : string) (ctx : list (string * ctxval)) : result string :=
  Jinja.render (show L) (getattr L) (templates I) tpl ctx.

Definition parse_frontmatter := FrontMatter.parse_frontmatter (safe_load L).

(** Lines 14-16. *)
Definition load_site : M document :=
  match site_yml I with
  | None => lift (Raise FileNotFoundError)
  | Some text => lift (safe_load L text)
  end.

(** Lines 68-72. *)
Definition copy_static (site : document) : M unit :=
  (if static_styles I
   then emit (EvCopy ["static"; "styles.css"] (DIST </> "styles.css"))
   else lift (Raise FileNotFoundError)) ;;
  (if static_404 I
   then emit (EvCopy ["static"; "404.html"] (DIST </> "404.html"))
   else lift (Raise FileNotFoundError)).

(** Lines 74-91. *)
Definition build_about (site : document) : M unit :=
  match about_md I with
  | None => ret tt
  | Some raw =>
      parsed <- lift (parse_frontmatter raw) ;;
      let '(fm, body) := parsed in
      let html := md_to_html L body in
      base_url <- lift (doc_get site "base_url" (VStr EmptyString)) ;;
      site_name <- lift (doc_item site "site_name") ;;
      author <- lift (doc_item site "author") ;;
      tagline <- lift (doc_get site "tagline" (VStr EmptyString)) ;;
      title <- lift (doc_get fm "title" (VStr "about")) ;;
      description <- lift (doc_get fm "description" (VStr "about")) ;;
      out <- lift (render "post.html"
               [("base_url", CVal base_url);
                ("site_name", CVal site_name);
                ("author", CVal author);
                ("tagline", CVal tagline);
                ("title", CVal title);
                ("description", CVal description);
                ("content", CVal (VStr html));
                ("iso_date", CVal (VStr EmptyString));
                ("human_date", CVal (VStr EmptyString));
                ("year", CInt (today_year I))]) ;;
      emit (EvWrite (DIST </> "about.html") out)
  end.

(** Lines 98-101: title, slug and date with their fallbacks.  The
    title is lowered only when the slug falls back to it, and only a
    string has [lower]. *)
Definition post_fields (fm : document) (file_stem : string)
  : result (pyval * pyval * datetime) :=
  rbind (doc_get fm "title" VNone) (fun t =>
  let title := py_or t (VStr file_stem) in
  rbind (doc_get fm "slug" VNone) (fun s =>
  rbind (if truthy s then Ok s
         else match title with
              | VStr x => Ok (VStr (Slug.slugify x))
              | _ => Raise AttributeError
              end) (fun slug =>
  rbind (doc_get fm "date" VNone) (fun d =>
  let date_str := py_or d (VStr (today_iso I)) in
  rbind (fromisoformat L (py_str date_str)) (fun dt =>
  Ok (title, slug, dt)))))).

(** The body of the loop, lines 96-133. *)
Definition build_post (site : document) (file : string * string) : M summary :=
  let '(name, raw) := file in
  parsed <- lift (parse_frontmatter raw) ;;
  let '(fm, body) := parsed in
  fields <- lift (post_fields fm (stem name)) ;;
  let '(title, slug, dt) := fields in
  let human_date := dt_human dt in
  let iso_date := dt_iso_date dt in
  let html := md_to_html L body in
  let '(word_count, reading_time) := ReadingTime.calculate_reading_time html in
  base_url <- lift (doc_get site "base_url" (VStr EmptyString)) ;;
  site_name <- lift (doc_item site "site_name") ;;
  author <- lift (doc_item site "author") ;;
  tagline <- lift (doc_get site "tagline" (VStr EmptyString)) ;;
  title_dash <- lift (str_add title (VStr title_sep)) ;;
  site_name' <- lift (doc_item site "site_name") ;;
  full_title <- lift (str_add title_dash site_name') ;;
  description <- lift (doc_get fm "description" (VStr EmptyString)) ;;
  out_html <- lift (render "post.html"
               [("base_url", CVal base_url);
                ("site_name", CVal site_name);
                ("author", CVal author);
                ("tagline", CVal tagline);
                ("title", CVal full_title);
                ("description", CVal description);
                ("content", CVal (VStr html));
                ("iso_date", CVal (VStr iso_date));
                ("human_date", CVal (VStr human_date));
                ("word_count", CInt word_count);
                ("reading_time", CInt reading_time);
                ("year", CInt (today_year I))]) ;;
  emit (EvMkdir (DIST </> "posts")) ;;
  emit (EvWrite (DIST </> "posts" </> (py_str slug ++ ".html")) out_html) ;;
  ret {| title := py_str title;
         slug := slug;
         date := dt;
         iso_date := iso_date;
         human_date := human_date;
         rfc2822 := dt_rfc2822 dt;
         description := description |}.

(** [sorted(SRC_POSTS.glob("*.md"))]: paths of one directory compare
    by name. *)
Definition sorted_posts : result (list (string * string)) :=
  PySort.sort (fun a b => Ok (ltb a b))
              (fun f : string * string => list_ascii_of_string (fst f))
              false (posts_glob I).

(** The [for] loop: [posts] accumulates by [append]. *)
Fixpoint post_loop (site : document) (files : list (string * string))
    (posts : list summary) : M (list summary) :=
  match files with
  | [] => ret posts
  | f :: rest =>
      s <- build_post site f ;;
      post_loop site rest (posts ++ [s])
  end.

(** Lines 93-136. *)
Definition build_posts (site : document) : M (list summary) :=
  files <- lift sorted_posts ;;
  posts <- post_loop site files [] ;;
  lift (PySort.sort dt_lt date true posts).

(** Lines 138-150. *)
Definition build_index (site : document) (posts : list summary) : M unit :=
  base_url <- lift (doc_get site "base_url" (VStr EmptyString)) ;;
  site_name <- lift (doc_item site "site_name") ;;
  author <- lift (doc_item site "author") ;;
  tagline <- lift (doc_get site "tagline" (VStr EmptyString)) ;;
  title <- lift (doc_item site "site_name") ;;
  description <- lift (doc_get site "description" (VStr EmptyString)) ;;
  work_links <- lift (doc_get site "work_links" (VObj false "[]")) ;;
  other_links <- lift (doc_get site "other_links" (VObj false "[]")) ;;
  html <- lift (render "index.html"
            [("base_url", CVal base_url);
             ("site_name", CVal site_name);
             ("author", CVal author);
             ("tagline", CVal tagline);
             ("title", CVal title);
             ("description", CVal description);
             ("posts", CPosts posts);
             ("work_links", CVal work_links);
             ("other_links", CVal other_links);
             ("year", CInt (today_year I))]) ;;
  emit (EvWrite (DIST </> "index.html") html).

(** Lines 152-158. *)
Definition build_feed (site : document) (posts : list summary) : M unit :=
  base_url <- lift (doc_get site "base_url" (VStr EmptyString)) ;;
  site_name <- lift (doc_item site "site_name") ;;
  description <- lift (doc_get site "description" (VStr EmptyString)) ;;
  xml <- lift (render "feed.xml"
           [("base_url", CVal base_url);
            ("site_name", CVal site_name);
            ("description", CVal description);
            ("posts", CPosts posts)]) ;;
  emit (EvWrite (DIST </> "feed.xml") xml).

(** What [main] does before the post builder (lines 161-167). *)
Definition main_prelude : M document :=
  site <- load_site ;;
  (if dist_exists I then emit (EvRmtree DIST) else ret tt) ;;
  emit (EvMkdir DIST) ;;
  copy_static site ;;
  build_about site ;;
  ret site.

(** The events of the index builder, of the feed builder and of the
    closing line. *)
Definition publishes (ev : event) : bool :=
  match ev with
  | EvWrite p _ =>
      bool_decide (p = DIST </> "index.html")
      || bool_decide (p = DIST </> "feed.xml")
  | EvBuilt _ => true
  | _ => false
  end.

(** A computation is quiet when it only appends events, none of
    which is an index write, a feed write or the closing line. *)
Definition quiet {A} (c : M A) : Prop :=
  forall tr r tr',
    c tr = (r, tr') ->
    exists evs,
      tr' = (tr ++ evs)%list
      /\ Forall (fun ev => publishes ev = false) evs.

(** Lines 160-171. *)
Definition main : M unit :=
  site <- main_prelude ;;
  posts <- build_posts site ;;
  build_index site posts ;;
  build_feed site posts ;;
  emit (EvBuilt (length posts)).
End Run.

End Build.

(** ** The text functions as the specification words them *)

Module Spec.
Import PyStr.

(** The maximal runs of a string with respect to a character class,
    each with the side of the class it lies on. *)
Fixpoint runs (p : ascii -> bool) (s : str) : list (bool * str) :=
  match s with
  | [] => []
  | c :: r =>
      match runs p r with
      | (b, run) :: rest =>
          if Bool.eqb b (p c) then (b, c :: run) :: rest
          else (p c, [c]) :: (b, run) :: rest
      | [] => [(p c, [c])]
      end
  end.

(** Every run inside the class becomes one hyphen, the other runs stay. *)
Definition collapse (p : ascii -> bool) (s : str) : str :=
  concat (map (fun br : bool * str => if fst br then [Slug.hyphen] else snd br)
              (runs p s)).

(** Alphanumeric, read as the ASCII letters and digits. *)
Definition is_alnum (c : ascii) : bool :=
  is_lower_az c || is_upper_az c || is_digit c.

(** The slug as stated: lowercase, collapse every run of
    non-alphanumeric characters to one hyphen, trim hyphens. *)
Definition spec_slug (title : string) : string :=
  string_of_list_ascii
    (strip is_hyphen
       (collapse (fun c => negb (is_alnum c))
                 (lower (list_ascii_of_string title)))).

(** The same with the hyphen counted among the characters that stay. *)
Definition spec_slug_keeping_hyphens (title : string) : string :=
  string_of_list_ascii
    (strip is_hyphen
       (collapse (fun c => negb (Slug.keep c))
                 (lower (list_ascii_of_string title)))).

Definition hyphen_free (title : string) : bool :=
  forallb (fun c => negb (is_hyphen c)) (list_ascii_of_string title).

(** Slug-shaped: lowercase letters, digits and hyphens, with no hyphen
    at either end. *)
Definition slug_shaped (s : string) : bool :=
  let l := list_ascii_of_string s in
  forallb Slug.keep l
  && match l with c :: _ => negb (is_hyphen c) | [] => true end
  && match rev l with c :: _ => negb (is_hyphen c) | [] => true end.

(** The whitespace-delimited tokens of a string: its maximal runs of
    characters that are not whitespace. *)
Definition tokens (s : str) : list str :=
  map snd (List.filter (fun br : bool * str => negb (fst br)) (runs is_space s)).

(** A tag: an opening bracket, one or more characters other than the
    closing bracket, and the closing bracket. *)
Definition is_tag (t : str) : Prop :=
  exists body,
    t = "<"%char :: body ++ [">"%char]
    /\ body <> []
    /\ Forall (fun c => c <> ">"%char) body.

Definition tag_at_start (s : str) : Prop :=
  exists t rest, s = t ++ rest /\ is_tag t.

(** [tags_removed s clean]: reading [s] from the left, every tag met
    is dropped and every other character is kept. *)
Inductive tags_removed : str -> str -> Prop :=
| tr_nil : tags_removed [] []
| tr_tag t rest clean :
    is_tag t -> tags_removed rest clean -> tags_removed (t ++ rest) clean
| tr_char c rest clean :
    ~ tag_at_start (c :: rest) -> tags_removed rest clean ->
    tags_removed (c :: rest) (c :: clean).

(** No tag is left anywhere in the string. *)
Definition tag_free (s : str) : Prop :=
  forall pre t post, s = pre ++ t ++ post -> ~ is_tag t.

(** [r] is the integer nearest to [n / d], the even one of the two when
    [n / d] lies half-way. *)
Definition nearest_even (n d r : Z) : Prop :=
  (2 * Z.abs (d * r - n) <= d)%Z
  /\ ((2 * Z.abs (d * r - n) = d)%Z -> Z.even r = true).

(** The number of places of [s] where [sep] occurs. *)
Fixpoint occurrences (sep s : str) : nat :=
  match s with
  | [] => 0
  | _ :: r => (if startswith s sep then 1 else 0) + occurrences sep r
  end.

(** [s] is [a], then its leftmost occurrence of [sep], then [b]. *)
Definition first_occurrence (sep s a b : str) : Prop :=
  s = a ++ sep ++ b
  /\ forall j, j < length a -> startswith (drop j s) sep = false.

End Spec.

(** ** A small site to run the builders on *)

Module Demo.
Local Open Scope string_scope.

(** Front-matter blocks and what PyYAML loads from them. *)
Definition fm_hello : string := "
title: Hello World
date: 2024-01-01
".
Definition fm_june : string := "
date: 2024-06-01
".
Definition fm_blank : string := "
title: ''
slug: ''
date: ''
".
Definition fm_soon : string := "
date: soon
".
Definition site_text : string := "site_name: Notes
author: A. Writer
".

Definition blank_map : gmap string pyval :=
  {[ "title" := VStr EmptyString; "slug" := VStr EmptyString;
     "date" := VStr EmptyString ]}.

Definition loaded : list (string * document) :=
  [ (fm_hello, DMap {[ "title" := VStr "Hello World";
                       "date" := VObj true "2024-01-01" ]});
    (fm_june, DMap {[ "date" := VObj true "2024-06-01" ]});
    (fm_blank, DMap blank_map);
    (fm_soon, DMap {[ "date" := VStr "soon" ]});
    (site_text, DMap {[ "site_name" := VStr "Notes";
                        "author" := VStr "A. Writer" ]}) ].

Fixpoint assoc {V} (k : string) (l : list (string * V)) : option V :=
  match l with
  | [] => None
  | (k', v) :: r => if String.eqb k k' then Some v else assoc k r
  end.

(** A loader that knows the documents above; a document of nothing
    but whitespace loads as [None]. *)
Definition safe_load (s : string) : result document :=
  if forallb PyStr.is_space (list_ascii_of_string s) then Ok (DVal VNone)
  else match assoc s loaded with
       | Some d => Ok d
       | None => Raise YAMLError
       end.

(** Midnight of a day, from its proleptic ordinal. *)
Definition midnight (ordinal : Z) (human iso rfc : string) : datetime :=
  {| dt_instant := ordinal * 86400000000;
     dt_aware := false;
     dt_human := human; dt_iso_date := iso; dt_rfc2822 := rfc |}.

Definition jan_1 : datetime :=
  midnight 738886 "Jan 01, 2024" "2024-01-01" "Mon, 01 Jan 2024 00:00:00 -0000".
Definition jun_1 : datetime :=
  midnight 739038 "Jun 01, 2024" "2024-06-01" "Sat, 01 Jun 2024 00:00:00 -0000".

Definition fromisoformat (s : string) : result datetime :=
  match assoc s [("2024-01-01", jan_1); ("2024-06-01", jun_1)] with
  | Some d => Ok d
  | None => Raise ValueError
  end.

Definition show (v : ctxval) : string :=
  match v with
  | CVal x => py_str x
  | CInt n => pretty n
  | CPosts ps => String.concat ", " (map title ps)
  end.

Definition lib : Lib :=
  mk_lib safe_load fromisoformat
         (fun body => "<p>" ++ body ++ "</p>")
         show
         (fun _ _ => None).

Definition post (fm body : string) : string :=
  "---" ++ fm ++ "---" ++ body.

Definition post_hello : string := post fm_hello "
First post.
".
Definition post_june : string := post fm_june "
A <b>later</b> post.
".
Definition post_blank : string := post fm_blank "
No metadata to speak of.
".
Definition post_soon : string := post fm_soon "
Not dated.
".

Definition tpls : gmap string Jinja.template :=
  {[ "post.html" := [Jinja.Text "<h1>"; Jinja.Var "title"; Jinja.Text "</h1>";
                     Jinja.Var "content"];
     "index.html" := [Jinja.Var "site_name"; Jinja.Text ": "; Jinja.Var "posts"];
     "feed.xml" := [Jinja.Text "<rss>"; Jinja.Var "posts"; Jinja.Text "</rss>"] ]}.

Definition inputs_with (posts : list (string * string)) : Inputs :=
  {| site_yml := Some site_text;
     about_md := None;
     posts_glob := posts;
     static_styles := true;
     static_404 := true;
     dist_exists := true;
     templates := tpls;
     today_iso := "2024-01-01";
     today_year := 2024 |}.

(** Three posts, as a directory listing may give them. *)
Definition inputs : Inputs :=
  inputs_with [("c.md", post_blank); ("a.md", post_hello); ("b.md", post_june)].

(** The same with a post whose date does not parse. *)
Definition inputs_soon : Inputs :=
  inputs_with [("c.md", post_blank); ("d.md", post_soon); ("a.md", post_hello)].

Definition site : document :=
  DMap {[ "site_name" := VStr "Notes"; "author" := VStr "A. Writer" ]}.

(** What the post builder returns on the three posts, and its trace. *)
Definition built : result (list summary) * list event :=
  Eval vm_compute in Build.build_posts lib inputs site [].

Definition built_posts : list summary :=
  match fst built with
  | inr posts => posts
  | inl _ => []
  end.

End Demo.

(** ** The layout of the output *)

Module Layout.
Import Build.
Local Open Scope string_scope.

(** Where line 121 puts the page of a post. *)
Definition post_path (s : summary) : path :=
  DIST </> "posts" </> (py_str (slug s) ++ ".html").

(** What lines 122-123 leave on the trace for a list of pages, each a
    summary with the rendered text. *)
Definition page_events (pages : list (summary * string)) : list event :=
  flat_map (fun p : summary * string =>
              [EvMkdir (DIST </> "posts"); EvWrite (post_path (fst p)) (snd p)])
           pages.

(** The events that remove something. *)
Definition removes (ev : event) : bool :=
  match ev with
  | EvRmtree _ => true
  | _ => false
  end.

(** The events that remove nothing. *)
Definition keeps (ev : event) : bool := negb (removes ev).

(** A computation only appends events, all of them of one kind. *)
Definition emits_only {A} (P : event -> bool) (c : M A) : Prop :=
  forall tr r tr',
    c tr = (r, tr') ->
    exists evs, tr' = (tr ++ evs)%list /\ Forall (fun ev => P ev = true) evs.

(** The same inputs with another listing of the posts directory. *)
Definition with_posts (I : Inputs) (posts : list (string * string)) : Inputs :=
  {| site_yml := site_yml I;
     about_md := about_md I;
     posts_glob := posts;
     static_styles := static_styles I;
     static_404 := static_404 I;
     dist_exists := dist_exists I;
     templates := templates I;
     today_iso := today_iso I;
     today_year := today_year I |}.


(** The string neither begins nor ends with whitespace. *)
Definition trimmed (s : string) : Prop :=
  let l := list_ascii_of_string s in
  match l with c :: _ => PyStr.is_space c = false | [] => True end
  /\ match rev l with c :: _ => PyStr.is_space c = false | [] => True end.

(** The dates of the list are all naive or all aware. *)
Definition uniform_dates (l : list summary) : Prop :=
  forall a b, In a l -> In b l -> dt_aware (date a) = dt_aware (date b).

End Layout.

(** ** A second small site, with a date that carries a time zone *)

Module DemoZones.
Local Open Scope string_scope.

Definition fm_spring : string := "
title: Spring
date: 2024-03-01T12:00:00+00:00
".

Definition noon_march_1_utc : datetime :=
  {| dt_instant := 738946 * 86400000000 + 43200000000;
     dt_aware := true;
     dt_human := "Mar 01, 2024";
     dt_iso_date := "2024-03-01";
     dt_rfc2822 := "Fri, 01 Mar 2024 12:00:00 +0000" |}.

Definition safe_load (s : string) : result document :=
  if String.eqb s fm_spring
  then Ok (DMap {[ "title" := VStr "Spring";
                   "date" := VObj true "2024-03-01 12:00:00+00:00" ]})
  else Demo.safe_load s.

Definition fromisoformat (s : string) : result datetime :=
  if String.eqb s "2024-03-01 12:00:00+00:00" then Ok noon_march_1_utc
  else Demo.fromisoformat s.

Definition lib : Lib :=
  mk_lib safe_load fromisoformat (md_to_html Demo.lib) Demo.show
         (fun _ _ => None).

Definition post_spring : string := Demo.post fm_spring "
Noon, with a zone.
".

(** A post with a naive date beside one with an aware date. *)
Definition inputs : Inputs :=
  Demo.inputs_with [("a.md", Demo.post_hello); ("s.md", post_spring)].

(** What the loop of the post builder gives on them. *)
Definition looped : result (list summary) * list event :=
  Eval vm_compute in
    Build.post_loop lib inputs Demo.site (posts_glob inputs) [] [].

Definition summaries : list summary :=
  match fst looped with
  | inr sums => sums
  | inl _ => []
  end.

End DemoZones.

(** * Properties *)

(** ** Strings and the regular-expression scan *)

Module PyStrFacts.
Import PyStr.

Lemma is_hyphen_spec c : is_hyphen c = true <-> c = Slug.hyphen.
Proof.
  destruct c as [[] [] [] [] [] [] [] []]; vm_compute; split; congruence.
Qed.

Lemma lower_char_keep c : Slug.keep c = true -> lower_char c = c.
Proof.
  destruct c as [[] [] [] [] [] [] [] []]; vm_compute; congruence.
Qed.

Lemma lower_char_hyphen c : is_hyphen (lower_char c) = is_hyphen c.
Proof.
  destruct c as [[] [] [] [] [] [] [] []]; vm_compute; congruence.
Qed.

Lemma lower_char_not_upper c : is_upper_az (lower_char c) = false.
Proof.
  destruct c as [[] [] [] [] [] [] [] []]; vm_compute; congruence.
Qed.

Lemma take_drop_while p s : take_while p s ++ drop_while p s = s.
Proof.
  induction s as [|c r IH]; simpl; [done|].
  destruct (p c); simpl; [by rewrite IH | done].
Qed.

Lemma drop_take_while p s : drop (length (take_while p s)) s = drop_while p s.
Proof.
  induction s as [|c r IH]; simpl; [done|].
  destruct (p c); simpl; [apply IH | done].
Qed.

Lemma drop_while_length p s : length (drop_while p s) <= length s.
Proof.
  induction s as [|c r IH]; simpl; [lia|].
  destruct (p c); simpl; lia.
Qed.

Lemma drop_while_head p s c r : drop_while p s = c :: r -> p c = false.
Proof.
  induction s as [|d s IH]; simpl; [done|].
  destruct (p d) eqn:E; [done|]. intros [= -> _]. done.
Qed.

Lemma drop_while_id p s :
  match s with c :: _ => p c = false | [] => True end -> drop_while p s = s.
Proof. destruct s as [|c r]; simpl; [done|]. by intros ->. Qed.

Lemma forallb_drop_while q p s :
  forallb q s = true -> forallb q (drop_while p s) = true.
Proof.
  induction s as [|c r IH]; simpl; [done|].
  intros [Hc Hr]%andb_prop. destruct (p c); [by apply IH|].
  simpl. by rewrite Hc, Hr.
Qed.

Lemma forallb_rev (q : ascii -> bool) s : forallb q (rev s) = forallb q s.
Proof.
  induction s as [|c r IH]; simpl; [done|].
  rewrite forallb_app, IH. simpl. rewrite andb_true_r. apply andb_comm.
Qed.

Lemma forallb_strip q p s : forallb q s = true -> forallb q (strip p s) = true.
Proof.
  intros H. unfold strip, rstrip, lstrip.
  rewrite forallb_rev. apply forallb_drop_while.
  rewrite forallb_rev. by apply forallb_drop_while.
Qed.

(** Stripping leaves no stripped character at either end. *)
Lemma strip_head p s c r : strip p s = c :: r -> p c = false.
Proof.
  unfold strip, rstrip, lstrip.
  destruct (drop_while p s) as [|d t] eqn:E; [done|].
  pose proof (drop_while_head _ _ _ _ E) as Hd.
  pose proof (take_drop_while p (rev (d :: t))) as Hsplit.
  intros H. apply (f_equal (@rev ascii)) in Hsplit.
  rewrite rev_app_distr, rev_involutive, H in Hsplit.
  simpl in Hsplit. by injection Hsplit as <- _.
Qed.

Lemma strip_last p s c r : rev (strip p s) = c :: r -> p c = false.
Proof.
  unfold strip, rstrip. rewrite rev_involutive. apply drop_while_head.
Qed.

Lemma strip_id p s :
  match s with c :: _ => p c = false | [] => True end ->
  match rev s with c :: _ => p c = false | [] => True end ->
  strip p s = s.
Proof.
  intros H1 H2. unfold strip, rstrip, lstrip.
  rewrite (drop_while_id p s H1), (drop_while_id p (rev s) H2).
  apply rev_involutive.
Qed.

End PyStrFacts.

Module ReFacts.
Import PyStr PyStrFacts.

Lemma sub_from_drop m repl k s :
  Re.sub_from m repl k s = Re.sub m repl (drop k s).
Proof.
  revert k. induction s as [|c r IH]; intros [|k]; simpl; auto.
Qed.

(** Where the pattern matches [S k] characters, the replacement is
    emitted and the scan resumes behind them. *)
Lemma sub_match m repl c r k :
  m (c :: r) = Some (S k) ->
  Re.sub m repl (c :: r) = repl ++ Re.sub m repl (drop k r).
Proof.
  intros H. unfold Re.sub at 1. simpl. rewrite H.
  by rewrite sub_from_drop.
Qed.

Lemma sub_no_match m repl c r :
  m (c :: r) = None ->
  Re.sub m repl (c :: r) = c :: Re.sub m repl r.
Proof. intros H. unfold Re.sub. simpl. by rewrite H. Qed.

Lemma match_plus_in cls c r :
  cls c = true ->
  Re.match_plus cls (c :: r) = Some (S (length (take_while cls r))).
Proof. intros H. unfold Re.match_plus. simpl. by rewrite H. Qed.

Lemma match_plus_out cls c r :
  cls c = false -> Re.match_plus cls (c :: r) = None.
Proof. intros H. unfold Re.match_plus. simpl. by rewrite H. Qed.

Lemma sub_plus_in cls repl c r :
  cls c = true ->
  Re.sub (Re.match_plus cls) repl (c :: r)
  = repl ++ Re.sub (Re.match_plus cls) repl (drop_while cls r).
Proof.
  intros H. rewrite (sub_match _ _ _ _ _ (match_plus_in cls c r H)).
  by rewrite drop_take_while.
Qed.

Lemma sub_plus_out cls repl c r :
  cls c = false ->
  Re.sub (Re.match_plus cls) repl (c :: r)
  = c :: Re.sub (Re.match_plus cls) repl r.
Proof. intros H. apply sub_no_match. by apply match_plus_out. Qed.

(** Induction on the length of a string. *)
Lemma str_length_ind (P : str -> Prop) :
  (forall s, (forall t, length t < length s -> P t) -> P s) -> forall s, P s.
Proof.
  intros step s. remember (length s) as n eqn:Hn.
  revert s Hn. induction n as [n IH] using lt_wf_ind.
  intros s ->. apply step. intros t Ht. by apply (IH (length t)).
Qed.

(** A string without class characters goes through unchanged. *)
Lemma sub_plus_none cls repl s :
  forallb (fun c => negb (cls c)) s = true ->
  Re.sub (Re.match_plus cls) repl s = s.
Proof.
  induction s as [|c r IH]; simpl; [done|].
  intros [Hc Hr]%andb_prop. apply negb_true_iff in Hc.
  rewrite sub_plus_out by done. by rewrite IH.
Qed.

(** The result holds the characters outside the class and those of
    the replacement. *)
Lemma sub_plus_forallb cls repl q s :
  forallb q repl = true ->
  (forall c, cls c = false -> q c = true) ->
  forallb q (Re.sub (Re.match_plus cls) repl s) = true.
Proof.
  intros Hrepl Hq. induction s as [s IH] using str_length_ind.
  destruct s as [|c r]; [done|].
  destruct (cls c) eqn:E.
  - rewrite sub_plus_in by done. rewrite forallb_app, Hrepl. simpl.
    apply IH. simpl. pose proof (drop_while_length cls r). lia.
  - rewrite sub_plus_out by done. simpl. rewrite (Hq c E). simpl.
    apply IH. simpl. lia.
Qed.

End ReFacts.

Module SlugFacts.
Import PyStr PyStrFacts ReFacts Spec.

Lemma runs_head p c r :
  exists run rest, runs p (c :: r) = (p c, c :: run) :: rest.
Proof.
  simpl. destruct (runs p r) as [|[b run] rest]; [by eexists _, _|].
  destruct (Bool.eqb b (p c)) eqn:E; [|by eexists _, _].
  apply eqb_prop in E. subst b. by eexists _, _.
Qed.

Lemma collapse_out p c r :
  p c = false -> collapse p (c :: r) = c :: collapse p r.
Proof.
  intros Hc. unfold collapse. simpl.
  destruct (runs p r) as [|[b run] rest]; simpl; [by rewrite Hc|].
  rewrite Hc. by destruct b; simpl.
Qed.

Lemma collapse_in p c r :
  p c = true -> collapse p (c :: r) = Slug.hyphen :: collapse p (drop_while p r).
Proof.
  intros Hc. revert c Hc. induction r as [|d r IH]; intros c Hc.
  - unfold collapse. simpl. by rewrite Hc.
  - destruct (p d) eqn:Hd.
    + simpl drop_while. rewrite Hd. rewrite <- (IH d Hd).
      destruct (runs_head p d r) as (run & rest & Hruns).
      unfold collapse. change (runs p (c :: d :: r))
        with (match runs p (d :: r) with
              | (b, run) :: rest =>
                  if Bool.eqb b (p c) then (b, c :: run) :: rest
                  else (p c, [c]) :: (b, run) :: rest
              | [] => [(p c, [c])]
              end).
      rewrite Hruns, Hd, Hc. done.
    + simpl drop_while. rewrite Hd.
      destruct (runs_head p d r) as (run & rest & Hruns).
      unfold collapse. change (runs p (c :: d :: r))
        with (match runs p (d :: r) with
              | (b, run) :: rest =>
                  if Bool.eqb b (p c) then (b, c :: run) :: rest
                  else (p c, [c]) :: (b, run) :: rest
              | [] => [(p c, [c])]
              end).
      rewrite Hruns, Hd, Hc. simpl. done.
Qed.

(** The scan of [re.sub] with a class-plus pattern and a one-hyphen
    replacement is the collapse of the class runs. *)
Lemma sub_plus_collapse cls s :
  Re.sub (Re.match_plus cls) [Slug.hyphen] s = collapse cls s.
Proof.
  induction s as [s IH] using str_length_ind.
  destruct s as [|c r]; [done|].
  destruct (cls c) eqn:E.
  - rewrite sub_plus_in, collapse_in by done. simpl. f_equal.
    apply IH. simpl. pose proof (drop_while_length cls r). lia.
  - rewrite sub_plus_out, collapse_out by done. f_equal.
    apply IH. simpl. lia.
Qed.

Lemma slugify_keeping_hyphens title :
  Slug.slugify title = spec_slug_keeping_hyphens title.
Proof.
  unfold Slug.slugify, Slug.slugify_chars, spec_slug_keeping_hyphens.
  by rewrite sub_plus_collapse.
Qed.

(** On a lowered string without hyphens the two classes agree. *)
Lemma runs_ext p q s :
  Forall (fun c => p c = q c) s -> runs p s = runs q s.
Proof.
  induction 1 as [|c r Hc _ IH]; simpl; [done|]. by rewrite IH, Hc.
Qed.

Lemma class_agree c :
  is_hyphen c = false ->
  negb (Slug.keep (lower_char c)) = negb (is_alnum (lower_char c)).
Proof.
  destruct c as [[] [] [] [] [] [] [] []]; vm_compute; congruence.
Qed.

Lemma slugify_hyphen_free title :
  hyphen_free title = true -> Slug.slugify title = spec_slug title.
Proof.
  intros H. rewrite slugify_keeping_hyphens.
  unfold spec_slug_keeping_hyphens, spec_slug, collapse. do 4 f_equal.
  apply runs_ext. unfold hyphen_free in H. unfold lower.
  induction (list_ascii_of_string title) as [|c r IH]; simpl; [done|].
  simpl in H. apply andb_prop in H as [Hc Hr].
  constructor; [|by apply IH].
  apply class_agree. by apply negb_true_iff in Hc.
Qed.

(** The slug is slug-shaped. *)
Lemma slugify_chars_keep s : forallb Slug.keep (Slug.slugify_chars s) = true.
Proof.
  unfold Slug.slugify_chars. apply forallb_strip, sub_plus_forallb; [done|].
  intros c Hc. by apply negb_false_iff in Hc.
Qed.

Lemma slugify_shaped title : slug_shaped (Slug.slugify title) = true.
Proof.
  unfold slug_shaped, Slug.slugify.
  rewrite list_ascii_of_string_of_list_ascii.
  rewrite slugify_chars_keep. simpl.
  apply andb_true_intro. split.
  - destruct (Slug.slugify_chars _) as [|c r] eqn:E; [done|].
    apply strip_head in E. by rewrite E.
  - destruct (rev (Slug.slugify_chars _)) as [|c r] eqn:E; [done|].
    apply strip_last in E. by rewrite E.
Qed.

Lemma lower_keep s : forallb Slug.keep s = true -> lower s = s.
Proof.
  induction s as [|c r IH]; simpl; [done|].
  intros [Hc Hr]%andb_prop. by rewrite lower_char_keep, IH.
Qed.

Lemma slugify_fixed s : slug_shaped s = true -> Slug.slugify s = s.
Proof.
  unfold slug_shaped, Slug.slugify, Slug.slugify_chars.
  intros [[Hk Hh]%andb_prop Hl]%andb_prop.
  rewrite lower_keep by done.
  rewrite sub_plus_none.
  - rewrite strip_id; [apply string_of_list_ascii_of_string| |].
    + destruct (list_ascii_of_string s); [done|]. by apply negb_true_iff.
    + destruct (rev (list_ascii_of_string s)); [done|]. by apply negb_true_iff.
  - clear Hh Hl. induction (list_ascii_of_string s) as [|c r IH]; [done|].
    simpl in *. apply andb_prop in Hk as [Hc Hr].
    by rewrite negb_involutive, Hc, IH.
Qed.

End SlugFacts.

(** ** Reading time *)

Module ReadingTimeFacts.
Import PyStr PyStrFacts ReFacts Spec ReadingTime.

Lemma code_lt c : (code c =? 60)%N = true <-> c = "<"%char.
Proof.
  destruct c as [[] [] [] [] [] [] [] []]; vm_compute; split; congruence.
Qed.

Lemma not_gt_spec c : Re.not_gt c = true <-> c <> ">"%char.
Proof.
  destruct c as [[] [] [] [] [] [] [] []]; vm_compute; split; congruence.
Qed.

Lemma not_gt_code c : (code c =? 62)%N = negb (Re.not_gt c).
Proof. unfold Re.not_gt. by rewrite negb_involutive. Qed.

Lemma take_while_stop p body d rest :
  forallb p body = true -> p d = false ->
  take_while p (body ++ d :: rest) = body.
Proof.
  intros Hb Hd. induction body as [|c r IH]; simpl in *; [by rewrite Hd|].
  apply andb_prop in Hb as [Hc Hr]. by rewrite Hc, IH.
Qed.

Lemma take_while_all p s : forallb p (take_while p s) = true.
Proof.
  induction s as [|c r IH]; simpl; [done|].
  destruct (p c) eqn:E; simpl; [by rewrite E|done].
Qed.

Lemma forallb_drop (q : ascii -> bool) k s :
  forallb q s = true -> forallb q (drop k s) = true.
Proof.
  revert k. induction s as [|c r IH]; intros [|k] H; simpl in *; try done.
  apply IH. by apply andb_prop in H as [_ ?].
Qed.

Lemma Forall_not_gt body :
  Forall (fun c => c <> ">"%char) body <-> forallb Re.not_gt body = true.
Proof.
  induction body as [|c r IH]; simpl; [done|].
  rewrite Forall_cons, andb_true_iff, IH, not_gt_spec. done.
Qed.

(** The matcher answers exactly on the strings that start with a tag. *)
Lemma match_tag_tag body rest :
  body <> [] -> forallb Re.not_gt body = true ->
  Re.match_tag ("<"%char :: body ++ ">"%char :: rest)
  = Some (2 + length body).
Proof.
  intros Hne Hb. unfold Re.match_tag.
  replace (code "<" =? 60)%N with true by done.
  cbv zeta. rewrite take_while_stop by done.
  destruct body as [|b body]; [done|].
  by rewrite drop_app_length.
Qed.

Lemma match_tag_some s n :
  Re.match_tag s = Some n ->
  exists body rest,
    s = "<"%char :: body ++ ">"%char :: rest
    /\ body <> [] /\ forallb Re.not_gt body = true
    /\ n = 2 + length body.
Proof.
  unfold Re.match_tag. destruct s as [|c r]; [done|].
  destruct (code c =? 60)%N eqn:Hc; [|done].
  apply code_lt in Hc as ->.
  pose proof (take_drop_while Re.not_gt r) as Hsplit.
  pose proof (take_while_all Re.not_gt r) as Hall.
  cbv zeta.
  destruct (take_while Re.not_gt r) as [|b body] eqn:Hb; [done|].
  assert (drop (length (b :: body)) r = drop_while Re.not_gt r) as ->
    by (rewrite <- Hb; apply drop_take_while).
  destruct (drop_while Re.not_gt r) as [|d rest] eqn:Hd; [done|].
  pose proof (drop_while_head _ _ _ _ Hd) as Hgt.
  rewrite not_gt_code, Hgt. simpl. intros [= <-].
  exists (b :: body), rest. repeat split; try done.
  rewrite <- Hsplit. do 3 f_equal.
  destruct (ascii_dec d ">"%char) as [->|Hne]; [done|].
  apply not_gt_spec in Hne. congruence.
Qed.

Lemma match_tag_none s : Re.match_tag s = None -> ~ tag_at_start s.
Proof.
  intros Hnone (t & rest & -> & body & -> & Hne & Hb).
  apply Forall_not_gt in Hb.
  simpl in Hnone. rewrite <- app_assoc in Hnone. simpl in Hnone.
  change (Re.match_tag ("<"%char :: body ++ ">"%char :: rest) = None) in Hnone.
  by rewrite match_tag_tag in Hnone.
Qed.

Lemma drop_past (body : str) d rest :
  drop (S (length body)) (body ++ d :: rest) = rest.
Proof. induction body as [|c r IH]; simpl; [done|apply IH]. Qed.

(** A tag at the start is dropped whole. *)
Lemma strip_tags_tag body rest :
  body <> [] -> forallb Re.not_gt body = true ->
  strip_tags ("<"%char :: body ++ ">"%char :: rest) = strip_tags rest.
Proof.
  intros Hne Hb. unfold strip_tags.
  rewrite (sub_match _ _ _ _ (S (length body)) (match_tag_tag body rest Hne Hb)).
  by rewrite drop_past.
Qed.

Lemma strip_tags_char c r :
  Re.match_tag (c :: r) = None -> strip_tags (c :: r) = c :: strip_tags r.
Proof. apply sub_no_match. Qed.

(** What [strip_tags] does is the removal of the tags, read from the
    left. *)
Lemma strip_tags_removed s : tags_removed s (strip_tags s).
Proof.
  induction s as [s IH] using str_length_ind.
  destruct s as [|c r]; [constructor|].
  destruct (Re.match_tag (c :: r)) as [n|] eqn:E.
  - apply match_tag_some in E as (body & rest & Hs & Hne & Hb & _).
    rewrite Hs, strip_tags_tag by done.
    change ("<"%char :: body ++ ">"%char :: rest)
      with (("<"%char :: body) ++ [">"%char] ++ rest).
    rewrite app_assoc. apply tr_tag.
    + exists body. repeat split; [done|]. by apply Forall_not_gt.
    + apply IH. rewrite Hs. simpl. rewrite length_app. simpl. lia.
  - rewrite strip_tags_char by done. apply tr_char.
    + by apply match_tag_none.
    + apply IH. simpl. lia.
Qed.

(** Only characters of the input are in the output. *)
Lemma strip_tags_forallb q (s : str) :
  forallb q s = true -> forallb q (strip_tags s) = true.
Proof.
  induction s as [s IH] using str_length_ind. intros Hq.
  destruct s as [|c r]; [done|].
  destruct (Re.match_tag (c :: r)) as [n|] eqn:E.
  - apply match_tag_some in E as (body & rest & Hs & Hne & Hb & _).
    rewrite Hs, strip_tags_tag by done. apply IH.
    + rewrite Hs. simpl. rewrite length_app. simpl. lia.
    + rewrite Hs in Hq. simpl in Hq. apply andb_prop in Hq as [_ Hq].
      rewrite forallb_app in Hq. apply andb_prop in Hq as [_ Hq].
      simpl in Hq. by apply andb_prop in Hq as [_ Hq].
  - rewrite strip_tags_char by done. simpl in *.
    apply andb_prop in Hq as [Hc Hr]. rewrite Hc. simpl.
    apply IH; [lia|done].
Qed.

Lemma tag_free_cons c out :
  tag_free out -> ~ tag_at_start (c :: out) -> tag_free (c :: out).
Proof.
  intros Hfree Hstart pre t post Heq Htag.
  destruct pre as [|d pre]; simpl in Heq.
  - apply Hstart. by exists t, post.
  - injection Heq as _ Heq. by apply (Hfree pre t post).
Qed.

(** Where no tag starts in the input, none starts in the output. *)
Lemma no_tag_at_start_kept c r :
  Re.match_tag (c :: r) = None -> ~ tag_at_start (c :: strip_tags r).
Proof.
  intros Hnone (t & post & Heq & body & -> & Hne & Hb).
  apply Forall_not_gt in Hb.
  simpl in Heq. rewrite <- app_assoc in Heq. simpl in Heq.
  injection Heq as -> Heq.
  unfold Re.match_tag in Hnone.
  replace (code "<" =? 60)%N with true in Hnone by done.
  cbv zeta in Hnone.
  destruct (take_while Re.not_gt r) as [|b run] eqn:Hrun.
  - (* the bracket is followed by a closing bracket, or by nothing *)
    destruct r as [|d r]; [by destruct body|].
    simpl in Hrun. destruct (Re.not_gt d) eqn:Hd; [done|].
    assert (Re.match_tag (d :: r) = None) as Hm.
    { unfold Re.match_tag.
      destruct (code d =? 60)%N eqn:E; [|done].
      apply code_lt in E. by subst d. }
    rewrite strip_tags_char in Heq by done.
    destruct body as [|b body]; [done|].
    simpl in Heq, Hb. injection Heq as -> _.
    by rewrite Hd in Hb.
  - (* no closing bracket follows *)
    assert (drop (length (b :: run)) r = drop_while Re.not_gt r) as Hdrop
      by (rewrite <- Hrun; apply drop_take_while).
    rewrite Hdrop in Hnone.
    assert (forallb Re.not_gt r = true) as Hall.
    { destruct (drop_while Re.not_gt r) as [|d rest] eqn:Hd.
      - rewrite <- (take_drop_while Re.not_gt r), Hd, app_nil_r.
        apply take_while_all.
      - pose proof (drop_while_head _ _ _ _ Hd) as Hgt.
        by rewrite not_gt_code, Hgt in Hnone. }
    apply (strip_tags_forallb Re.not_gt) in Hall.
    rewrite Heq, forallb_app in Hall.
    apply andb_prop in Hall as [_ Hall]. done.
Qed.

Lemma strip_tags_tag_free s : tag_free (strip_tags s).
Proof.
  induction s as [s IH] using str_length_ind.
  destruct s as [|c r].
  - intros pre t post Heq (body & -> & _).
    by destruct pre.
  - destruct (Re.match_tag (c :: r)) as [n|] eqn:E.
    + apply match_tag_some in E as (body & rest & Hs & Hne & Hb & _).
      rewrite Hs, strip_tags_tag by done. apply IH.
      rewrite Hs. simpl. rewrite length_app. simpl. lia.
    + rewrite strip_tags_char by done. apply tag_free_cons.
      * apply IH. simpl. lia.
      * by apply no_tag_at_start_kept.
Qed.

(** *** Word count *)

(** A word followed by nothing or by a character of the other side is
    a run of its own. *)
Lemma runs_word (p : ascii -> bool) w s :
  w <> [] -> forallb (fun c => negb (p c)) w = true ->
  match s with d :: _ => p d = true | [] => True end ->
  runs p (w ++ s) = (false, w) :: runs p s.
Proof.
  intros Hne Hw Hs. induction w as [|c w IH]; [done|].
  simpl in Hw. apply andb_prop in Hw as [Hc Hw].
  apply negb_true_iff in Hc.
  destruct w as [|c' w].
  - simpl. destruct s as [|d s]; [by rewrite Hc|].
    destruct (SlugFacts.runs_head p d s) as (run & rest & ->).
    by rewrite Hs, Hc.
  - change (runs p ((c :: c' :: w) ++ s))
      with (match runs p ((c' :: w) ++ s) with
            | (b, run) :: rest =>
                if Bool.eqb b (p c) then (b, c :: run) :: rest
                else (p c, [c]) :: (b, run) :: rest
            | [] => [(p c, [c])]
            end).
    rewrite IH by done. by rewrite Hc.
Qed.

Lemma tokens_space c r : is_space c = true -> tokens (c :: r) = tokens r.
Proof.
  intros Hc. unfold tokens. simpl.
  destruct (runs is_space r) as [|[b run] rest]; simpl; rewrite Hc; [done|].
  by destruct b.
Qed.

Lemma tokens_word w s :
  w <> [] -> forallb (fun c => negb (is_space c)) w = true ->
  match s with d :: _ => is_space d = true | [] => True end ->
  tokens (w ++ s) = w :: tokens s.
Proof.
  intros Hne Hw Hs. unfold tokens. by rewrite runs_word.
Qed.

Lemma rev_not_nil (c : ascii) l : rev (c :: l) <> [].
Proof.
  intros H. apply (f_equal (@length ascii)) in H.
  rewrite length_rev in H. done.
Qed.

Lemma split_ws_aux_tokens cur s :
  forallb (fun c => negb (is_space c)) cur = true ->
  split_ws_aux cur s = tokens (rev cur ++ s).
Proof.
  revert cur. induction s as [|c r IH]; intros cur Hcur.
  - simpl split_ws_aux. destruct cur as [|d cur]; [done|].
    rewrite (tokens_word (rev (d :: cur)) []);
      [done|apply rev_not_nil|by rewrite forallb_rev|done].
  - simpl split_ws_aux. destruct (is_space c) eqn:Hc.
    + destruct cur as [|d cur].
      * rewrite (IH []) by done. simpl. by rewrite tokens_space.
      * rewrite (IH []) by done.
        rewrite (tokens_word (rev (d :: cur)) (c :: r));
          [|apply rev_not_nil|by rewrite forallb_rev|done].
        simpl. by rewrite tokens_space.
    + rewrite IH by (simpl; by rewrite Hc).
      simpl. by rewrite <- app_assoc.
Qed.

Lemma split_ws_tokens s : split_ws s = tokens s.
Proof. unfold split_ws. by rewrite split_ws_aux_tokens. Qed.

(** *** Rounding *)

Lemma py_round_div_nearest n : nearest_even n 200 (py_round_div n 200).
Proof.
  unfold nearest_even, py_round_div.
  pose proof (Z.div_mod n 200 ltac:(lia)) as Hdm.
  pose proof (Z.mod_pos_bound n 200 ltac:(lia)) as Hr.
  destruct (Z.ltb_spec (2 * (n mod 200)) 200) as [H1|H1]; [lia|].
  destruct (Z.ltb_spec 200 (2 * (n mod 200))) as [H2|H2]; [lia|].
  destruct (Z.even (n / 200)) eqn:He; [split; [lia|done]|].
  split; [lia|]. intros _.
  rewrite Z.add_1_r, Z.even_succ, <- Z.negb_even. by rewrite He.
Qed.

(** There is one such integer. *)
Lemma nearest_even_unique n r1 r2 :
  nearest_even n 200 r1 -> nearest_even n 200 r2 -> r1 = r2.
Proof.
  intros [H1 E1] [H2 E2].
  destruct (Z.eq_dec r1 r2) as [|Hne]; [done|exfalso].
  assert (Z.even r1 = true) as Hr1 by (apply E1; lia).
  assert (Z.even r2 = true) as Hr2 by (apply E2; lia).
  apply Z.even_spec in Hr1 as [k1 ->], Hr2 as [k2 ->]. lia.
Qed.

Lemma py_round_div_mono n1 n2 :
  (n1 <= n2)%Z -> (py_round_div n1 200 <= py_round_div n2 200)%Z.
Proof.
  intros Hle. destruct (Z.eq_dec n1 n2) as [->|Hne]; [lia|].
  destruct (py_round_div_nearest n1) as [H1 _].
  destruct (py_round_div_nearest n2) as [H2 _].
  lia.
Qed.

Lemma minutes_of_mono w1 w2 :
  (w1 <= w2)%Z -> (minutes_of w1 <= minutes_of w2)%Z.
Proof.
  intros H. unfold minutes_of. pose proof (py_round_div_mono w1 w2 H). lia.
Qed.

End ReadingTimeFacts.

(** C4.  The reading-time estimator drops every tag (what is left holds
    none), counts the whitespace-delimited tokens of what is left, and
    returns as minutes the integer nearest to a two-hundredth of the
    count (the even one on a tie, as [round] does), but at least 1. *)
Theorem calculate_reading_time_spec (text : string) :
  exists clean r,
    Spec.tags_removed (list_ascii_of_string text) clean
    /\ Spec.tag_free clean
    /\ fst (ReadingTime.calculate_reading_time text)
       = Z.of_nat (length (Spec.tokens clean))
    /\ Spec.nearest_even (fst (ReadingTime.calculate_reading_time text)) 200 r
    /\ snd (ReadingTime.calculate_reading_time text) = Z.max 1 r.
Proof.
  exists (ReadingTime.strip_tags (list_ascii_of_string text)).
  exists (ReadingTime.py_round_div
            (fst (ReadingTime.calculate_reading_time text)) 200).
  split; [apply ReadingTimeFacts.strip_tags_removed|].
  split; [apply ReadingTimeFacts.strip_tags_tag_free|].
  split.
  - simpl. unfold ReadingTime.word_count.
    by rewrite ReadingTimeFacts.split_ws_tokens.
  - split; [apply ReadingTimeFacts.py_round_div_nearest|done].
Qed.

(** C5.  Reading time does not decrease when the word count grows, and
    it is at least 1 for a non-empty input. *)
Theorem reading_time_monotone :
  (forall a b : string,
      (fst (ReadingTime.calculate_reading_time a)
       <= fst (ReadingTime.calculate_reading_time b))%Z ->
      (snd (ReadingTime.calculate_reading_time a)
       <= snd (ReadingTime.calculate_reading_time b))%Z)
  /\ (forall a : string,
        a <> EmptyString ->
        (1 <= snd (ReadingTime.calculate_reading_time a))%Z).
Proof.
  split.
  - intros a b H. simpl in *. by apply ReadingTimeFacts.minutes_of_mono.
  - intros a _. simpl. unfold ReadingTime.minutes_of. lia.
Qed.

Lemma reading_time_monotone_witness :
  (fst (ReadingTime.calculate_reading_time "<p>one</p>")
   <= fst (ReadingTime.calculate_reading_time "<b>two</b> words"))%Z
  /\ (snd (ReadingTime.calculate_reading_time "<p>one</p>")
      <= snd (ReadingTime.calculate_reading_time "<b>two</b> words"))%Z
  /\ (1 <= snd (ReadingTime.calculate_reading_time "<p>one</p>"))%Z.
Proof.
  split; [vm_compute; discriminate|].
  split.
  - apply (proj1 reading_time_monotone). vm_compute. discriminate.
  - apply (proj2 reading_time_monotone). discriminate.
Defined.

(** ** Front matter *)

Module FrontMatterFacts.
Import PyStr PyStrFacts Spec FrontMatter.

Lemma cut_eq sep s :
  cut sep s =
  if startswith s sep then Some ([], drop (length sep) s)
  else match s with
       | [] => None
       | c :: r =>
           match cut sep r with
           | Some (a, b) => Some (c :: a, b)
           | None => None
           end
       end.
Proof. by destruct s. Qed.

Lemma startswith_app sep b : startswith (sep ++ b) sep = true.
Proof.
  induction sep as [|c sep IH]; simpl; [by destruct b|].
  by rewrite Ascii.eqb_refl, IH.
Qed.

Lemma startswith_nil sep : sep <> [] -> startswith [] sep = false.
Proof. by destruct sep. Qed.

(** The cut is at the leftmost occurrence. *)
Lemma cut_first sep s a b :
  first_occurrence sep s a b -> cut sep s = Some (a, b).
Proof.
  intros [-> Hfirst]. induction a as [|c a IH].
  - rewrite cut_eq. simpl. rewrite startswith_app.
    by rewrite drop_app_length.
  - rewrite cut_eq.
    pose proof (Hfirst 0 ltac:(simpl; lia)) as H0.
    change (startswith (c :: a ++ sep ++ b) sep = false) in H0.
    change ((c :: a) ++ sep ++ b) with (c :: a ++ sep ++ b).
    rewrite H0, IH; [done|].
    intros j Hj. apply (Hfirst (S j)). simpl. lia.
Qed.

Lemma cut_none sep s :
  sep <> [] -> occurrences sep s = 0 -> cut sep s = None.
Proof.
  intros Hsep. induction s as [|c r IH]; intros Hocc.
  - rewrite cut_eq. by rewrite startswith_nil.
  - rewrite cut_eq. cbn [occurrences] in Hocc.
    destruct (startswith (c :: r) sep); [done|].
    by rewrite IH.
Qed.

Lemma delimiter_not_nil : delimiter <> [].
Proof. done. Qed.

(** A text that opens with the delimiter is cut there first. *)
Lemma cut_opening t :
  startswith t delimiter = true -> cut delimiter t = Some ([], drop 3 t).
Proof. intros H. rewrite cut_eq. by rewrite H. Qed.

Section ParserFacts.
Variable safe_load : string -> result document.

Lemma parse_plain text :
  startswith (list_ascii_of_string text) delimiter = false ->
  parse_frontmatter safe_load text = Ok (DMap ∅, text).
Proof. intros H. unfold parse_frontmatter. by rewrite H. Qed.

Lemma parse_delimited text fm rest :
  startswith (list_ascii_of_string text) delimiter = true ->
  first_occurrence delimiter (drop 3 (list_ascii_of_string text)) fm rest ->
  parse_frontmatter safe_load text
  = rbind (safe_load (string_of_list_ascii fm)) (fun data =>
      Ok (doc_or_empty data,
          string_of_list_ascii (strip is_space rest))).
Proof.
  intros Hstart Hfirst. unfold parse_frontmatter. rewrite Hstart.
  unfold split. rewrite (cut_opening _ Hstart).
  by rewrite (cut_first _ _ _ _ Hfirst).
Qed.

Lemma parse_unclosed text :
  startswith (list_ascii_of_string text) delimiter = true ->
  occurrences delimiter (drop 3 (list_ascii_of_string text)) = 0 ->
  parse_frontmatter safe_load text = Raise ValueError.
Proof.
  intros Hstart Hocc. unfold parse_frontmatter. rewrite Hstart.
  unfold split. rewrite (cut_opening _ Hstart).
  by rewrite (cut_none _ _ delimiter_not_nil Hocc).
Qed.

End ParserFacts.
End FrontMatterFacts.

(** ** Sorting *)

Module PySortFacts.

Section Stable.
Context {A K : Type}.
Variable lt : K -> K -> result bool.
Variable ltb : K -> K -> bool.
Variable key : A -> K.

(** Where [<] answers, it answers as the strict weak order [ltb]. *)
Hypothesis lt_sound : forall a b r, lt a b = Ok r -> r = ltb a b.
Hypothesis ltb_asymmetric : forall a b, ltb a b = true -> ltb b a = false.
Hypothesis ltb_cotransitive :
  forall a b c, ltb a b = true -> ltb a c = true \/ ltb c b = true.

Lemma le_trans x y z : PySort.le ltb key x y -> PySort.le ltb key y z -> PySort.le ltb key x z.
Proof using ltb_cotransitive.
  unfold PySort.le. intros Hxy Hyz.
  destruct (ltb (key z) (key x)) eqn:E; [|done].
  destruct (ltb_cotransitive _ _ (key y) E); congruence.
Qed.

Lemma lt_le_trans x y z :
  ltb (key x) (key y) = true -> PySort.le ltb key y z -> ltb (key x) (key z) = true.
Proof using ltb_cotransitive.
  unfold PySort.le. intros Hxy Hyz.
  destruct (ltb_cotransitive _ _ (key z) Hxy); congruence.
Qed.

Lemma insert_perm x l l' :
  PySort.insert lt key x l = Ok l' -> Permutation l' (x :: l).
Proof.
  revert l'. induction l as [|y l IH]; intros l'; simpl.
  - by intros [= <-].
  - destruct (lt (key x) (key y)) as [e|[]]; simpl; [done| |].
    + by intros [= <-].
    + destruct (PySort.insert lt key x l) as [e|r]; simpl; [done|].
      intros [= <-]. rewrite (IH r eq_refl). apply perm_swap.
Qed.

Lemma insert_sorted x l l' :
  StronglySorted (PySort.le ltb key) l -> PySort.insert lt key x l = Ok l' ->
  StronglySorted (PySort.le ltb key) l'.
Proof using lt_sound ltb_asymmetric ltb_cotransitive.
  revert l'. induction l as [|y l IH]; intros l' Hs; simpl.
  - intros [= <-]. repeat constructor.
  - destruct (lt (key x) (key y)) as [e|b] eqn:E; simpl; [done|].
    apply lt_sound in E. destruct b.
    + intros [= <-]. constructor; [done|].
      apply StronglySorted_inv in Hs as [_ Hy].
      constructor.
      * unfold PySort.le. by apply ltb_asymmetric.
      * eapply Forall_impl; [exact Hy|]. intros z Hz.
        unfold PySort.le. apply ltb_asymmetric. by eapply lt_le_trans.
    + destruct (PySort.insert lt key x l) as [e|r] eqn:Hr; simpl; [done|].
      intros [= <-]. apply StronglySorted_inv in Hs as [Hl Hy].
      constructor; [by apply IH|].
      rewrite (insert_perm _ _ _ Hr). constructor; [|done].
      unfold PySort.le. done.
Qed.

(** Insertion leaves the elements of every key in their order and
    puts the new one behind those of its key. *)
Lemma insert_stable k x l l' :
  StronglySorted (PySort.le ltb key) l -> PySort.insert lt key x l = Ok l' ->
  List.filter (PySort.same ltb key k) l'
  = List.filter (PySort.same ltb key k) l ++ (if PySort.same ltb key k x then [x] else []).
Proof using lt_sound ltb_asymmetric ltb_cotransitive.
  revert l'. induction l as [|y l IH]; intros l' Hs; simpl.
  - intros [= <-]. simpl. by destruct (PySort.same ltb key k x).
  - destruct (lt (key x) (key y)) as [e|b] eqn:E; simpl; [done|].
    apply lt_sound in E. destruct b.
    + intros [= <-]. simpl.
      destruct (PySort.same ltb key k x) eqn:Hx; [|by rewrite app_nil_r].
      assert (List.filter (PySort.same ltb key k) (y :: l) = []) as Hnone.
      { apply StronglySorted_inv in Hs as [_ Hy].
        assert (Forall (fun z => PySort.same ltb key k z = false) (y :: l)) as Hall.
        { apply andb_prop in Hx as [Hkx Hxk].
          apply negb_true_iff in Hkx, Hxk.
          assert (forall z, ltb (key x) (key z) = true -> PySort.same ltb key k z = false)
            as Hlt.
          { intros z Hz. unfold PySort.same.
            destruct (ltb_cotransitive _ _ k Hz) as [H|H]; [congruence|].
            by rewrite H. }
          constructor; [by apply Hlt|].
          eapply Forall_impl; [exact Hy|]. intros z Hz.
          apply Hlt. by eapply lt_le_trans. }
        clear -Hall. induction Hall as [|z r Hz _ IHr]; simpl; [done|].
        by rewrite Hz. }
      simpl in Hnone. by rewrite Hnone.
    + destruct (PySort.insert lt key x l) as [e|r] eqn:Hr; simpl; [done|].
      intros [= <-]. apply StronglySorted_inv in Hs as [Hl _].
      simpl. rewrite (IH r Hl eq_refl).
      by destruct (PySort.same ltb key k y).
Qed.

Lemma insert_all_spec k acc l out :
  StronglySorted (PySort.le ltb key) acc -> PySort.insert_all lt key acc l = Ok out ->
  StronglySorted (PySort.le ltb key) out
  /\ Permutation out (acc ++ l)
  /\ List.filter (PySort.same ltb key k) out
     = List.filter (PySort.same ltb key k) acc ++ List.filter (PySort.same ltb key k) l.
Proof using lt_sound ltb_asymmetric ltb_cotransitive.
  revert acc. induction l as [|x l IH]; intros acc Hacc; simpl.
  - intros [= <-]. by rewrite !app_nil_r.
  - destruct (PySort.insert lt key x acc) as [e|acc'] eqn:E; simpl; [done|].
    intros Hout.
    destruct (IH acc' (insert_sorted _ _ _ Hacc E) Hout) as (Hs & Hp & Hf).
    split; [done|]. split.
    + rewrite Hp, (insert_perm _ _ _ E). simpl. apply Permutation_middle.
    + rewrite Hf, (insert_stable k _ _ _ Hacc E), <- app_assoc.
      by destruct (PySort.same ltb key k x).
Qed.

(** The ascending sort: sorted, a permutation, stable. *)
Lemma sort_asc_spec k l out :
  PySort.sort_asc lt key l = Ok out ->
  StronglySorted (PySort.le ltb key) out
  /\ Permutation out l
  /\ List.filter (PySort.same ltb key k) out = List.filter (PySort.same ltb key k) l.
Proof using lt_sound ltb_asymmetric ltb_cotransitive.
  intros H. by apply (insert_all_spec k [] l out); [constructor|].
Qed.

Lemma StronglySorted_rev (R : A -> A -> Prop) l :
  StronglySorted R l -> StronglySorted (fun a b => R b a) (rev l).
Proof.
  induction 1 as [|x l Hl IH Hx]; simpl; [constructor|].
  apply StronglySorted_app_2; [|done|by repeat constructor].
  intros a b Ha Hb. apply list_elem_of_singleton in Hb as ->.
  rewrite Forall_forall in Hx. apply Hx.
  apply list_elem_of_In. apply list_elem_of_In in Ha. by apply in_rev.
Qed.

(** The descending sort: every element is not before its
    successors, it is a permutation, and it is stable too. *)
Lemma sort_reverse_spec k l out :
  PySort.sort lt key true l = Ok out ->
  StronglySorted (fun a b => PySort.le ltb key b a) out
  /\ Permutation out l
  /\ List.filter (PySort.same ltb key k) out = List.filter (PySort.same ltb key k) l.
Proof using lt_sound ltb_asymmetric ltb_cotransitive.
  unfold PySort.sort.
  destruct (PySort.sort_asc lt key (rev l)) as [e|r] eqn:E; simpl; [done|].
  intros [= <-]. destruct (sort_asc_spec k _ _ E) as (Hs & Hp & Hf).
  split; [by apply StronglySorted_rev|]. split.
  - by rewrite <- Permutation_rev, Hp, <- Permutation_rev.
  - by rewrite List.filter_rev, Hf, List.filter_rev, rev_involutive.
Qed.
End Stable.

End PySortFacts.

Module PySortReturns.

Section Returns.
Context {A K : Type}.
Variable lt : K -> K -> result bool.
Variable key : A -> K.

Lemma insert_returns x l :
  (forall y, In y l -> returns (lt (key x) (key y))) ->
  returns (PySort.insert lt key x l).
Proof.
  induction l as [|y l IH]; intros H; simpl; [by eexists|].
  destruct (H y (or_introl eq_refl)) as [b ->]. simpl.
  destruct b; [by eexists|].
  destruct IH as [r ->]; [|by eexists].
  intros z Hz. apply H. by right.
Qed.

Lemma insert_all_returns acc l :
  (forall x y, In x (acc ++ l) -> In y (acc ++ l) ->
               returns (lt (key x) (key y))) ->
  returns (PySort.insert_all lt key acc l).
Proof.
  revert acc. induction l as [|x l IH]; intros acc H; simpl; [by eexists|].
  destruct (insert_returns x acc) as [acc' Hacc'].
  { intros y Hy. apply H; apply in_or_app; [right; by left|by left]. }
  rewrite Hacc'. simpl. apply IH. intros a b Ha Hb.
  assert (forall c, In c (acc' ++ l) -> In c (acc ++ x :: l)) as Hin.
  { intros c Hc. apply in_app_or in Hc as [Hc|Hc].
    - assert (Permutation acc' (x :: acc)) as Hp.
      { clear -Hacc'. revert acc' Hacc'.
        induction acc as [|y acc IHa]; intros acc'; simpl.
        - by intros [= <-].
        - destruct (lt (key x) (key y)) as [e|[]]; simpl; [done| |].
          + by intros [= <-].
          + destruct (PySort.insert lt key x acc) as [e|r]; simpl; [done|].
            intros [= <-]. rewrite (IHa r eq_refl). apply perm_swap. }
      apply (Permutation_in _ Hp) in Hc as [<-|Hc];
        apply in_or_app; [right; by left|by left].
    - apply in_or_app. right. by right. }
  apply H; by apply Hin.
Qed.

Lemma sort_returns reverse l :
  (forall x y, In x l -> In y l -> returns (lt (key x) (key y))) ->
  returns (PySort.sort lt key reverse l).
Proof.
  intros H. unfold PySort.sort, PySort.sort_asc. destruct reverse.
  - destruct (insert_all_returns [] (rev l)) as [r ->]; [|by eexists].
    simpl. intros x y Hx Hy. apply H; by apply in_rev.
  - by apply insert_all_returns.
Qed.
End Returns.

End PySortReturns.

Module OrderFacts.
Import PyStr.

(** The order of strings is a strict weak order. *)
Lemma ltb_asym a b : ltb a b = true -> ltb b a = false.
Proof.
  revert b. induction a as [|x a IH]; intros [|y b]; simpl; try done.
  destruct (N.ltb_spec (code x) (code y)), (N.ltb_spec (code y) (code x));
    auto; lia.
Qed.

Lemma ltb_cotrans a b c :
  ltb a b = true -> ltb a c = true \/ ltb c b = true.
Proof.
  revert b c. induction a as [|x a IH]; intros [|y b] [|z c]; simpl;
    try done; auto.
  - destruct (N.ltb_spec (code x) (code y)), (N.ltb_spec (code y) (code x));
      try done; try lia.
    + destruct (N.ltb_spec (code x) (code z)),
        (N.ltb_spec (code z) (code x)),
        (N.ltb_spec (code z) (code y)),
        (N.ltb_spec (code y) (code z)); auto; try lia.
    + destruct (N.ltb_spec (code x) (code z)),
        (N.ltb_spec (code z) (code x)),
        (N.ltb_spec (code z) (code y)),
        (N.ltb_spec (code y) (code z)); auto; lia.
Qed.

Lemma dt_lt_ltb a b r : dt_lt a b = Ok r -> r = dt_ltb a b.
Proof.
  unfold dt_lt, dt_ltb.
  destruct (Bool.eqb (dt_aware a) (dt_aware b)); [|done]. by intros [= <-].
Qed.

Lemma dt_ltb_asym a b : dt_ltb a b = true -> dt_ltb b a = false.
Proof. unfold dt_ltb. lia. Qed.

Lemma dt_ltb_cotrans a b c :
  dt_ltb a b = true -> dt_ltb a c = true \/ dt_ltb c b = true.
Proof. unfold dt_ltb. lia. Qed.

End OrderFacts.

(** ** The builders *)

Module BuildFacts.
Import PyStr Build.

Lemma bind_ok {A B} (c : M A) (k : A -> M B) tr b tr' :
  bind c k tr = (inr b, tr') ->
  exists a tr1, c tr = (inr a, tr1) /\ k a tr1 = (inr b, tr').
Proof.
  unfold bind. destruct (c tr) as [[e|a] tr1]; [done|]. intros H.
  by exists a, tr1.
Qed.

Lemma bind_raise {A B} (c : M A) (k : A -> M B) tr e tr1 :
  c tr = (inl e, tr1) -> bind c k tr = (inl e, tr1).
Proof. unfold bind. by intros ->. Qed.

Lemma bind_step {A B} (c : M A) (k : A -> M B) tr a tr1 :
  c tr = (inr a, tr1) -> bind c k tr = k a tr1.
Proof. unfold bind. by intros ->. Qed.

Lemma StronglySorted_impl {A} (R R' : A -> A -> Prop) l :
  (forall x y, R x y -> R' x y) -> StronglySorted R l -> StronglySorted R' l.
Proof.
  intros H. induction 1 as [|x l Hl IH Hx]; constructor; [done|].
  eapply Forall_impl; [exact Hx|]. auto.
Qed.

Section RunFacts.
Variable L : Lib.
Variable I : Inputs.

(** *** The enumeration of the posts *)

Lemma sorted_posts_returns : returns (sorted_posts I).
Proof.
  apply PySortReturns.sort_returns. intros x y _ _. by eexists.
Qed.

Lemma sorted_posts_spec files :
  sorted_posts I = Ok files ->
  Permutation files (posts_glob I)
  /\ StronglySorted
       (fun f g => ltb (list_ascii_of_string (fst g))
                       (list_ascii_of_string (fst f)) = false) files.
Proof.
  intros H.
  destruct (PySortFacts.sort_asc_spec
              (fun a b => Ok (ltb a b)) ltb
              (fun f : string * string => list_ascii_of_string (fst f))
              ltac:(by intros a b r [= <-])
              OrderFacts.ltb_asym OrderFacts.ltb_cotrans
              [] (posts_glob I) files H) as (Hs & Hp & _).
  done.
Qed.

(** *** The loop *)

Lemma post_loop_ok site files acc tr out tr' :
  post_loop L I site files acc tr = (inr out, tr') ->
  exists sums,
    out = acc ++ sums
    /\ Forall2 (fun f s => exists t1 t2,
                    build_post L I site f t1 = (inr s, t2)) files sums.
Proof.
  revert acc tr. induction files as [|f files IH]; intros acc tr; simpl.
  - intros [= <- <-]. exists []. by rewrite app_nil_r.
  - intros H. apply bind_ok in H as (s & tr1 & Hs & H).
    apply IH in H as (sums & -> & Hall).
    exists (s :: sums). split; [by rewrite <- app_assoc|].
    constructor; [by exists tr, tr1|done].
Qed.

Lemma post_loop_raises site files f :
  In f files ->
  (forall tr, exists e tr', build_post L I site f tr = (inl e, tr')) ->
  forall acc tr, exists e tr', post_loop L I site files acc tr = (inl e, tr').
Proof.
  intros Hin Hbad. induction files as [|g files IH]; [done|].
  intros acc tr. simpl.
  destruct (build_post L I site g tr) as [[e|s] tr1] eqn:Hg.
  - exists e, tr1. by apply bind_raise.
  - rewrite (bind_step _ _ _ _ _ Hg).
    destruct Hin as [->|Hin]; [|by apply IH].
    destruct (Hbad tr) as (e & tr' & He). congruence.
Qed.

Lemma post_loop_returns site files :
  (forall f tr, In f files -> exists s tr', build_post L I site f tr = (inr s, tr')) ->
  forall acc tr, exists out tr', post_loop L I site files acc tr = (inr out, tr').
Proof.
  induction files as [|g files IH]; intros Hall acc tr; simpl.
  - by exists acc, tr.
  - destruct (Hall g tr (or_introl eq_refl)) as (s & tr1 & Hs).
    rewrite (bind_step _ _ _ _ _ Hs). apply IH.
    intros f t Hf. apply Hall. by right.
Qed.

(** *** Dates *)

(** The string that line 101 hands to [fromisoformat]. *)
Lemma post_fields_date (m : gmap string pyval) file_stem e :
  fromisoformat L
    (py_str (py_or (default VNone (m !! "date"%string))
                   (VStr (today_iso I)))) = inl e ->
  raises (post_fields L I (DMap m) file_stem).
Proof.
  intros Hbad. unfold post_fields. simpl.
  destruct (truthy (default VNone (m !! "slug"%string))).
  - simpl. rewrite Hbad. by eexists.
  - destruct (py_or (default VNone (m !! "title"%string)) (VStr file_stem))
      as [|x|t x]; simpl; try by eexists.
    rewrite Hbad. by eexists.
Qed.

Lemma build_post_bad_date site name raw m body e :
  parse_frontmatter L raw = Ok (DMap m, body) ->
  fromisoformat L
    (py_str (py_or (default VNone (m !! "date"%string))
                   (VStr (today_iso I)))) = inl e ->
  forall tr, exists e' tr', build_post L I site (name, raw) tr = (inl e', tr').
Proof.
  intros Hparse Hbad tr.
  destruct (post_fields_date m (stem name) e Hbad) as [e' He'].
  exists e', tr. unfold build_post.
  rewrite (bind_step _ _ tr (DMap m, body) tr) by (unfold lift; by rewrite Hparse).
  apply bind_raise. unfold lift. by rewrite He'.
Qed.

Lemma build_posts_raises site f :
  In f (posts_glob I) ->
  (forall tr, exists e tr', build_post L I site f tr = (inl e, tr')) ->
  forall tr, exists e tr', build_posts L I site tr = (inl e, tr').
Proof.
  intros Hin Hbad tr. unfold build_posts.
  destruct sorted_posts_returns as [files Hfiles].
  rewrite (bind_step _ _ tr files tr) by (unfold lift; by rewrite Hfiles).
  destruct (sorted_posts_spec files Hfiles) as [Hperm _].
  destruct (post_loop_raises site files f) with (acc := @nil summary) (tr := tr)
    as (e & tr' & He); [|done|].
  - eapply Permutation_in; [symmetry; exact Hperm|done].
  - exists e, tr'. by apply bind_raise.
Qed.

(** The post builder returns when every post builds and the dates
    are all naive or all aware. *)
Lemma build_posts_returns site tr files sums tr1 :
  sorted_posts I = Ok files ->
  post_loop L I site files [] tr = (inr sums, tr1) ->
  (forall a b, In a sums -> In b sums ->
               dt_aware (date a) = dt_aware (date b)) ->
  exists posts, build_posts L I site tr = (inr posts, tr1).
Proof.
  intros Hfiles Hloop Haware. unfold build_posts.
  rewrite (bind_step _ _ tr files tr) by (unfold lift; by rewrite Hfiles).
  rewrite (bind_step _ _ _ _ _ Hloop).
  destruct (PySortReturns.sort_returns dt_lt date true sums) as [posts Hp].
  - intros x y Hx Hy. unfold dt_lt.
    rewrite (Haware x y Hx Hy), Bool.eqb_reflx. by eexists.
  - exists posts. unfold lift. by rewrite Hp.
Qed.

(** The run stops where the post builder raises. *)
Lemma main_stops tr :
  (forall site tr1, exists e tr', build_posts L I site tr1 = (inl e, tr')) ->
  exists e tr',
    main L I tr = (inl e, tr')
    /\ (main_prelude L I tr = (inl e, tr')
        \/ exists site tr1,
             main_prelude L I tr = (inr site, tr1)
             /\ build_posts L I site tr1 = (inl e, tr')).
Proof.
  intros Hbad. unfold main.
  destruct (main_prelude L I tr) as [[e|site] tr1] eqn:Hpre.
  - exists e, tr1. split; [by apply bind_raise|by left].
  - destruct (Hbad site tr1) as (e & tr' & He).
    exists e, tr'. split.
    + rewrite (bind_step _ _ _ _ _ Hpre). by apply bind_raise.
    + right. by exists site, tr1.
Qed.
End RunFacts.
End BuildFacts.

(** *** What the builders before the index leave on the trace *)

Module TraceFacts.
Import PyStr Build BuildFacts.

Lemma quiet_ret {A} (a : A) : quiet (ret a).
Proof. intros tr r tr' [= <- <-]. exists []. by rewrite app_nil_r. Qed.

Lemma quiet_lift {A} (x : result A) : quiet (lift x).
Proof. intros tr r tr' [= <- <-]. exists []. by rewrite app_nil_r. Qed.

Lemma quiet_emit ev : publishes ev = false -> quiet (emit ev).
Proof.
  intros Hev tr r tr' [= <- <-]. exists [ev]. split; [done|].
  by constructor.
Qed.

Lemma quiet_bind {A B} (c : M A) (k : A -> M B) :
  quiet c -> (forall a, quiet (k a)) -> quiet (bind c k).
Proof.
  intros Hc Hk tr r tr'. unfold bind.
  destruct (c tr) as [[e|a] tr1] eqn:E.
  - intros [= <- <-]. by apply (Hc tr (inl e)).
  - intros H. destruct (Hc _ _ _ E) as (evs1 & -> & H1).
    destruct (Hk a _ _ _ H) as (evs2 & -> & H2).
    exists (evs1 ++ evs2). split; [by rewrite app_assoc|].
    by apply Forall_app.
Qed.

Ltac quiet_step :=
  first
    [ apply quiet_ret
    | apply quiet_lift
    | apply quiet_emit; reflexivity
    | apply quiet_bind; [|intros ?] ].

Section RunTrace.
Variable L : Lib.
Variable I : Inputs.

Lemma quiet_load_site : quiet (load_site L I).
Proof. unfold load_site. destruct (site_yml I); apply quiet_lift. Qed.

Lemma quiet_copy_static site : quiet (copy_static I site).
Proof.
  unfold copy_static.
  apply quiet_bind; [|intros _]; destruct (_ I); repeat quiet_step.
Qed.

Lemma quiet_build_about site : quiet (build_about L I site).
Proof.
  unfold build_about. destruct (about_md I); [|apply quiet_ret].
  apply quiet_bind; [apply quiet_lift|]. intros [fm body].
  repeat quiet_step.
Qed.

Lemma quiet_build_post site f : quiet (build_post L I site f).
Proof.
  unfold build_post. destruct f as [name raw].
  apply quiet_bind; [apply quiet_lift|]. intros [fm body].
  apply quiet_bind; [apply quiet_lift|]. intros [[t s] dt].
  destruct (ReadingTime.calculate_reading_time _) as [w m].
  repeat quiet_step.
Qed.

Lemma quiet_post_loop site files acc : quiet (post_loop L I site files acc).
Proof.
  revert acc. induction files as [|f files IH]; intros acc; simpl.
  - apply quiet_ret.
  - apply quiet_bind; [apply quiet_build_post|]. intros s. apply IH.
Qed.

Lemma quiet_build_posts site : quiet (build_posts L I site).
Proof.
  unfold build_posts.
  apply quiet_bind; [apply quiet_lift|]. intros files.
  apply quiet_bind; [apply quiet_post_loop|]. intros posts.
  apply quiet_lift.
Qed.

Lemma quiet_main_prelude : quiet (main_prelude L I).
Proof.
  unfold main_prelude.
  apply quiet_bind; [apply quiet_load_site|]. intros site.
  apply quiet_bind; [destruct (dist_exists I); repeat quiet_step|]. intros _.
  apply quiet_bind; [repeat quiet_step|]. intros _.
  apply quiet_bind; [apply quiet_copy_static|]. intros _.
  apply quiet_bind; [apply quiet_build_about|]. intros _.
  apply quiet_ret.
Qed.

(** When the post builder raises, the run ends there: nothing of the
    index, of the feed or of the closing line is on the trace. *)
Lemma main_aborts tr :
  (forall site tr1, exists e tr', build_posts L I site tr1 = (inl e, tr')) ->
  exists e evs,
    main L I tr = (inl e, tr ++ evs)
    /\ Forall (fun ev => publishes ev = false) evs.
Proof.
  intros Hbad.
  destruct (main_stops L I tr Hbad) as (e & tr' & Hmain & Hwhere).
  exists e.
  destruct Hwhere as [Hpre|(site & tr1 & Hpre & Hposts)].
  - destruct (quiet_main_prelude _ _ _ Hpre) as (evs & -> & Hq).
    by exists evs.
  - destruct (quiet_main_prelude _ _ _ Hpre) as (evs1 & -> & Hq1).
    destruct (quiet_build_posts _ _ _ _ Hposts) as (evs2 & -> & Hq2).
    exists (evs1 ++ evs2). split; [by rewrite app_assoc|].
    by apply Forall_app.
Qed.
End RunTrace.
End TraceFacts.

(** * The claims *)

(** C1 (as stated) fails: a run of hyphens in the title is not collapsed,
    because the hyphen is outside the replaced class. *)
Lemma slug_keeps_hyphen_runs :
  Slug.slugify "a--b" = "a--b"%string
  /\ Spec.spec_slug "a--b" = "a-b"%string
  /\ Slug.slugify "a--b" <> Spec.spec_slug "a--b".
Proof. repeat split. vm_compute. discriminate. Qed.

(** C1 (amended).  For every post whose front matter gives no slug, the
    slug is derived from the title: the lowercased title with every
    maximal run of characters other than ASCII lowercase letters, digits
    and hyphens collapsed to one hyphen, and the hyphens at both ends
    trimmed.  Hyphens of the title are kept as they are; for a title
    without hyphens the slug is the one obtained by collapsing the runs
    of non-alphanumeric characters. *)
Theorem post_slug_from_title
    (L : Lib) (I : Inputs) (m : gmap string pyval) (file_stem : string)
    (t s : pyval) (dt : datetime) :
  truthy (default VNone (m !! "slug"%string)) = false ->
  Build.post_fields L I (DMap m) file_stem = Ok (t, s, dt) ->
  exists x,
    t = VStr x
    /\ s = VStr (Slug.slugify x)
    /\ Slug.slugify x = Spec.spec_slug_keeping_hyphens x
    /\ (Spec.hyphen_free x = true -> Slug.slugify x = Spec.spec_slug x).
Proof.
  intros Hslug. unfold Build.post_fields. simpl. rewrite Hslug.
  destruct (py_or (default VNone (m !! "title"%string)) (VStr file_stem))
    as [|x|b x]; simpl; try done.
  destruct (fromisoformat L _) as [e|d]; simpl; [done|].
  intros [= <- <-]. exists x. repeat split.
  - apply SlugFacts.slugify_keeping_hyphens.
  - apply SlugFacts.slugify_hyphen_free.
Qed.

Lemma post_slug_from_title_witness :
  exists x,
    VStr "Hello World" = VStr x
    /\ VStr "hello-world" = VStr (Slug.slugify x)
    /\ Slug.slugify x = Spec.spec_slug_keeping_hyphens x
    /\ (Spec.hyphen_free x = true -> Slug.slugify x = Spec.spec_slug x).
Proof.
  apply (post_slug_from_title Demo.lib Demo.inputs
           {[ "title" := VStr "Hello World"; "date" := VObj true "2024-01-01" ]}
           "a" (VStr "Hello World") (VStr "hello-world") Demo.jan_1).
  - reflexivity.
  - vm_compute. reflexivity.
Defined.

(** C6.  Slug derivation is idempotent, and a slug-shaped string
    (lowercase letters, digits and hyphens, no hyphen at either end) is
    its own slug. *)
Theorem slugify_idempotent :
  (forall s : string, Slug.slugify (Slug.slugify s) = Slug.slugify s)
  /\ (forall s : string, Spec.slug_shaped s = true -> Slug.slugify s = s).
Proof.
  split.
  - intros s. apply SlugFacts.slugify_fixed, SlugFacts.slugify_shaped.
  - apply SlugFacts.slugify_fixed.
Qed.

Lemma slugify_idempotent_witness :
  Slug.slugify (Slug.slugify "Hello, World!") = Slug.slugify "Hello, World!"
  /\ Spec.slug_shaped "hello-world" = true
  /\ Slug.slugify "hello-world" = "hello-world"%string.
Proof.
  split; [apply (proj1 slugify_idempotent)|].
  split; [reflexivity|].
  apply (proj2 slugify_idempotent). reflexivity.
Defined.

(** C2 (as stated) fails: the body returned is not the remainder after
    the second delimiter but that remainder stripped of the whitespace
    around it. *)
Lemma parse_frontmatter_strips_body :
  PyStr.split FrontMatter.delimiter 2 (list_ascii_of_string Demo.post_june)
  = [ [];
      list_ascii_of_string Demo.fm_june;
      list_ascii_of_string "
A <b>later</b> post.
" ]
  /\ FrontMatter.parse_frontmatter Demo.safe_load Demo.post_june
     = Ok (DMap {[ "date"%string := VObj true "2024-06-01" ]},
           "A <b>later</b> post."%string)
  /\ "A <b>later</b> post."%string <> "
A <b>later</b> post.
"%string.
Proof. split; [|split]; [vm_compute; reflexivity ..|discriminate]. Qed.

(** C2 (amended).  A text that does not open with the delimiter is
    returned whole as the body, with an empty mapping.  A text that
    opens with it and has a second delimiter later on gives the loaded
    first segment (an empty mapping when that is falsy) as the metadata
    and the remainder after the second delimiter, stripped of the
    whitespace around it, as the body; an error of the loader is the
    parser's. *)
Theorem parse_frontmatter_spec
    (safe_load : string -> result document) (text : string) :
  (PyStr.startswith (list_ascii_of_string text) FrontMatter.delimiter = false ->
   FrontMatter.parse_frontmatter safe_load text = Ok (DMap ∅, text))
  /\ (forall fm rest,
        PyStr.startswith (list_ascii_of_string text) FrontMatter.delimiter = true ->
        Spec.first_occurrence FrontMatter.delimiter
          (drop 3 (list_ascii_of_string text)) fm rest ->
        FrontMatter.parse_frontmatter safe_load text
        = rbind (safe_load (string_of_list_ascii fm)) (fun data =>
            Ok (doc_or_empty data,
                string_of_list_ascii (PyStr.strip PyStr.is_space rest)))).
Proof.
  split.
  - apply FrontMatterFacts.parse_plain.
  - intros fm rest. apply FrontMatterFacts.parse_delimited.
Qed.

Lemma parse_frontmatter_spec_witness :
  FrontMatter.parse_frontmatter Demo.safe_load "Just text." = Ok (DMap ∅, "Just text."%string)
  /\ FrontMatter.parse_frontmatter Demo.safe_load Demo.post_june
     = rbind (Demo.safe_load Demo.fm_june) (fun data =>
         Ok (doc_or_empty data, "A <b>later</b> post."%string)).
Proof.
  split.
  - apply (proj1 (parse_frontmatter_spec Demo.safe_load "Just text.")).
    reflexivity.
  - apply (proj2 (parse_frontmatter_spec Demo.safe_load Demo.post_june)
             (list_ascii_of_string Demo.fm_june)
             (list_ascii_of_string "
A <b>later</b> post.
")).
    + reflexivity.
    + split; [reflexivity|].
      intros j Hj.
      do 18 (destruct j as [|j]; [reflexivity|]).
      simpl in Hj. lia.
Defined.

(** C9 (as stated) fails: a text that opens with the delimiter and has
    one further occurrence of it, which is fewer than two, is parsed. *)
Lemma parse_frontmatter_one_further_delimiter :
  PyStr.startswith (list_ascii_of_string Demo.post_june) FrontMatter.delimiter = true
  /\ Spec.occurrences FrontMatter.delimiter
       (drop 3 (list_ascii_of_string Demo.post_june)) = 1
  /\ FrontMatter.parse_frontmatter Demo.safe_load Demo.post_june
     = Ok (DMap {[ "date"%string := VObj true "2024-06-01" ]},
           "A <b>later</b> post."%string).
Proof. repeat split; vm_compute; reflexivity. Qed.

(** C9 (amended).  For every text that opens with the delimiter and has
    no further occurrence of it, the parser raises (the split gives two
    parts, not three), whatever the text holds otherwise. *)
Theorem parse_frontmatter_unclosed
    (safe_load : string -> result document) (text : string) :
  PyStr.startswith (list_ascii_of_string text) FrontMatter.delimiter = true ->
  Spec.occurrences FrontMatter.delimiter (drop 3 (list_ascii_of_string text)) = 0 ->
  FrontMatter.parse_frontmatter safe_load text = Raise ValueError.
Proof. apply FrontMatterFacts.parse_unclosed. Qed.

Lemma parse_frontmatter_unclosed_witness :
  FrontMatter.parse_frontmatter Demo.safe_load "--- a rule, then prose"
  = Raise ValueError.
Proof.
  apply (parse_frontmatter_unclosed Demo.safe_load "--- a rule, then prose");
    reflexivity.
Defined.

(** C3.  The list the post builder returns is sorted by date, newest
    first, and is a stable rearrangement of the summaries in the order
    the posts are enumerated, which is the order of their file names:
    the posts of any one date keep their enumeration order. *)
Theorem build_posts_sorted
    (L : Lib) (I : Inputs) (site : document)
    (tr : list event) (posts : list summary) (tr' : list event) :
  Build.build_posts L I site tr = (Ok posts, tr') ->
  StronglySorted
    (fun a b => (dt_instant (date b) <= dt_instant (date a))%Z) posts
  /\ exists files summaries,
       Build.sorted_posts I = Ok files
       /\ Permutation files (posts_glob I)
       /\ StronglySorted
            (fun f g => PyStr.ltb (list_ascii_of_string (fst g))
                                  (list_ascii_of_string (fst f)) = false) files
       /\ Forall2 (fun f s => exists t1 t2,
                       Build.build_post L I site f t1 = (Ok s, t2))
                  files summaries
       /\ Permutation posts summaries
       /\ forall d : Z,
            List.filter (fun s => (dt_instant (date s) =? d)%Z) posts
            = List.filter (fun s => (dt_instant (date s) =? d)%Z) summaries.
Proof.
  intros H. unfold Build.build_posts in H.
  apply BuildFacts.bind_ok in H as (files & tr1 & Hfiles & H).
  injection Hfiles as Hfiles <-.
  apply BuildFacts.bind_ok in H as (summaries & tr2 & Hloop & H).
  injection H as Hsort <-.
  destruct (BuildFacts.sorted_posts_spec I files Hfiles) as [Hperm Hnames].
  apply BuildFacts.post_loop_ok in Hloop as (sums & -> & Hall).
  simpl in Hsort.
  assert (forall k,
             StronglySorted (fun a b => PySort.le dt_ltb date b a) posts
             /\ Permutation posts sums
             /\ List.filter (PySort.same dt_ltb date k) posts
                = List.filter (PySort.same dt_ltb date k) sums) as Hspec.
  { intros k.
    apply (PySortFacts.sort_reverse_spec dt_lt dt_ltb date
             OrderFacts.dt_lt_ltb OrderFacts.dt_ltb_asym
             OrderFacts.dt_ltb_cotrans k sums posts Hsort). }
  pose (at_instant := fun d : Z => mk_datetime d false EmptyString EmptyString EmptyString).
  destruct (Hspec (at_instant 0%Z)) as (Hsorted & Hp & _).
  split.
  - eapply BuildFacts.StronglySorted_impl; [|exact Hsorted].
    intros a b. unfold PySort.le, dt_ltb. lia.
  - exists files, sums. repeat split; try done.
    intros d.
    destruct (Hspec (at_instant d)) as (_ & _ & Hf).
    assert (forall l,
               List.filter (fun s => (dt_instant (date s) =? d)%Z) l
               = List.filter (PySort.same dt_ltb date (at_instant d)) l)
      as Hext.
    { intros l. apply List.filter_ext. intros s.
      unfold PySort.same, dt_ltb. simpl. lia. }
    by rewrite !Hext.
Qed.

Lemma build_posts_sorted_witness :
  Build.build_posts Demo.lib Demo.inputs Demo.site []
  = (Ok Demo.built_posts, snd Demo.built)
  /\ map title Demo.built_posts = ["b"; "Hello World"; "c"]%string
  /\ StronglySorted
       (fun a b => (dt_instant (date b) <= dt_instant (date a))%Z)
       Demo.built_posts.
Proof.
  split; [vm_compute; reflexivity|].
  split; [reflexivity|].
  apply (build_posts_sorted Demo.lib Demo.inputs Demo.site []
           Demo.built_posts (snd Demo.built)).
  vm_compute. reflexivity.
Defined.

(** C7.  When the date of some post does not parse, the post builder
    raises, for any site and at any point of the run; [main] raises too
    and ends there, with nothing of the index, of the feed or of the
    closing line on its trace. *)
Theorem unparseable_date_aborts
    (L : Lib) (I : Inputs) (name raw : string)
    (m : gmap string pyval) (body : string) (e : exn) :
  In (name, raw) (posts_glob I) ->
  Build.parse_frontmatter L raw = Ok (DMap m, body) ->
  fromisoformat L
    (py_str (py_or (default VNone (m !! "date"%string))
                   (VStr (today_iso I)))) = Raise e ->
  (forall site tr, exists e' tr',
      Build.build_posts L I site tr = (Raise e', tr'))
  /\ (forall tr, exists e' evs,
        Build.main L I tr = (Raise e', tr ++ evs)
        /\ Forall (fun ev => Build.publishes ev = false) evs).
Proof.
  intros Hin Hparse Hdate.
  assert (forall site tr, exists e' tr',
             Build.build_posts L I site tr = (Raise e', tr')) as Hposts.
  { intros site. apply (BuildFacts.build_posts_raises L I site (name, raw) Hin).
    by apply (BuildFacts.build_post_bad_date L I site name raw m body e). }
  split; [done|].
  intros tr. by apply TraceFacts.main_aborts.
Qed.

Lemma unparseable_date_aborts_witness :
  (forall site tr, exists e' tr',
      Build.build_posts Demo.lib Demo.inputs_soon site tr = (Raise e', tr'))
  /\ (forall tr, exists e' evs,
        Build.main Demo.lib Demo.inputs_soon tr = (Raise e', tr ++ evs)
        /\ Forall (fun ev => Build.publishes ev = false) evs).
Proof.
  apply (unparseable_date_aborts Demo.lib Demo.inputs_soon
           "d.md" Demo.post_soon {[ "date"%string := VStr "soon" ]}
           "Not dated." ValueError).
  - right. left. reflexivity.
  - vm_compute. reflexivity.
  - vm_compute. reflexivity.
Defined.

(** C8 (as stated) fails: a template that prints a key the context does
    not supply renders, the key as the empty string. *)
Lemma render_missing_key :
  (list_to_map [] : gmap string ctxval) !! "title"%string = None
  /\ Demo.tpls !! "post.html"%string
     = Some [Jinja.Text "<h1>"; Jinja.Var "title"; Jinja.Text "</h1>";
             Jinja.Var "content"]
  /\ Build.render Demo.lib Demo.inputs "post.html" [] = Ok "<h1></h1>"%string.
Proof. repeat split; vm_compute; reflexivity. Qed.

(** C8 (amended).  The renderer raises whenever the named template does
    not exist, and whenever the template takes an attribute of a key the
    context does not supply.  A key that is missing and only printed,
    with or without a default, does not make it raise: a template
    renders as soon as every key it takes an attribute of is supplied. *)
Theorem render_failures
    (show : ctxval -> string) (getattr : ctxval -> string -> option ctxval)
    (loader : gmap string Jinja.template) (tpl : string)
    (ctx : list (string * ctxval)) :
  (loader !! tpl = None ->
   Jinja.render show getattr loader tpl ctx = Raise TemplateNotFound)
  /\ (forall (t : Jinja.template) x a,
        loader !! tpl = Some t ->
        In (Jinja.Attr x a) t ->
        (list_to_map ctx : gmap string ctxval) !! x = None ->
        Jinja.render show getattr loader tpl ctx = Raise UndefinedError)
  /\ (forall t : Jinja.template,
        loader !! tpl = Some t ->
        (forall x a, In (Jinja.Attr x a) t ->
                     is_Some ((list_to_map ctx : gmap string ctxval) !! x)) ->
        returns (Jinja.render show getattr loader tpl ctx)).
Proof.
  unfold Jinja.render, Jinja.get_template.
  split; [by intros ->|]. split.
  - intros t x a -> Hin Hx. simpl.
    assert (forall n, raises (Jinja.render_node show getattr (list_to_map ctx) n) ->
                      Jinja.render_node show getattr (list_to_map ctx) n
                      = Raise UndefinedError) as Honly.
    { intros [s|y|y d|y b] [e He]; simpl in *.
      - done.
      - by destruct (_ !! y).
      - by destruct (_ !! y).
      - destruct (_ !! y) as [v|]; [|done]. by destruct (getattr v b). }
    induction t as [|n t IH]; [done|]. simpl.
    destruct (Jinja.render_node show getattr (list_to_map ctx) n) as [e|s] eqn:En.
    + simpl. rewrite <- En. apply Honly. rewrite En. by eexists.
    + simpl. destruct Hin as [->|Hin].
      * simpl in En. by rewrite Hx in En.
      * by rewrite (IH Hin).
  - intros t -> Hattr. simpl.
    induction t as [|n t IH]; [by eexists|]. simpl.
    assert (returns (Jinja.render_node show getattr (list_to_map ctx) n)) as [s ->].
    { destruct n as [s|y|y d|y b]; simpl.
      - by eexists.
      - destruct (_ !! y); by eexists.
      - destruct (_ !! y); by eexists.
      - destruct (Hattr y b (or_introl eq_refl)) as [v ->].
        destruct (getattr v b); by eexists. }
    simpl. destruct IH as [r ->]; [|by eexists].
    intros x a Hin. apply (Hattr x a). by right.
Qed.

Lemma render_failures_witness :
  Jinja.render Demo.show (fun _ _ => None) Demo.tpls "missing.html" []
  = Raise TemplateNotFound
  /\ Jinja.render Demo.show (fun _ _ => None)
       {[ "card.html"%string := [Jinja.Var "title"; Jinja.Attr "post" "slug"] ]}
       "card.html" []
     = Raise UndefinedError
  /\ returns (Jinja.render Demo.show (fun _ _ => None) Demo.tpls "post.html" []).
Proof.
  split; [|split].
  - apply (proj1 (render_failures Demo.show (fun _ _ => None)
                    Demo.tpls "missing.html" [])).
    vm_compute. reflexivity.
  - apply (proj1 (proj2 (render_failures Demo.show (fun _ _ => None)
                           {[ "card.html"%string :=
                                [Jinja.Var "title"; Jinja.Attr "post" "slug"] ]}
                           "card.html" []))
             [Jinja.Var "title"; Jinja.Attr "post" "slug"] "post"%string "slug"%string).
    + vm_compute. reflexivity.
    + right. left. reflexivity.
    + vm_compute. reflexivity.
  - apply (proj2 (proj2 (render_failures Demo.show (fun _ _ => None)
                           Demo.tpls "post.html" []))
             [Jinja.Text "<h1>"; Jinja.Var "title"; Jinja.Text "</h1>";
              Jinja.Var "content"]).
    + vm_compute. reflexivity.
    + intros x a [H|[H|[H|[H|[]]]]]; discriminate.
Defined.

(** C10.  In the fallback chain a key that is present with a falsy value
    counts as a missing key: title, slug and date are derived as if the
    key were not there.  A falsy title gives the file stem, a falsy slug
    the slug of the title, a falsy date the date of the run, and then
    the date of the post is the parsed date of the run. *)
Theorem falsy_front_matter_falls_back
    (L : Lib) (I : Inputs) (m : gmap string pyval) (file_stem : string) :
  (forall key v,
      In key ["title"; "slug"; "date"]%string ->
      m !! key = Some v -> truthy v = false ->
      Build.post_fields L I (DMap m) file_stem
      = Build.post_fields L I (DMap (delete key m)) file_stem)
  /\ (forall t s dt,
        Build.post_fields L I (DMap m) file_stem = Ok (t, s, dt) ->
        (truthy (default VNone (m !! "title"%string)) = false ->
         t = VStr file_stem)
        /\ (truthy (default VNone (m !! "slug"%string)) = false ->
            s = VStr (Slug.slugify (py_str t)))
        /\ (truthy (default VNone (m !! "date"%string)) = false ->
            fromisoformat L (today_iso I) = Ok dt))
  /\ (forall d0,
        truthy (default VNone (m !! "title"%string)) = false ->
        truthy (default VNone (m !! "date"%string)) = false ->
        fromisoformat L (today_iso I) = Ok d0 ->
        exists s, Build.post_fields L I (DMap m) file_stem
                  = Ok (VStr file_stem, s, d0)).
Proof.
  split; [|split].
  - intros key v Hkey Hv Hfalsy. unfold Build.post_fields. simpl.
    assert (forall d, py_or v d = py_or VNone d) as Hor
      by (intros d; unfold py_or; by rewrite Hfalsy).
    destruct Hkey as [<-|[<-|[<-|[]]]].
    + rewrite lookup_delete_eq, !lookup_delete_ne, Hv by done. simpl.
      by rewrite Hor.
    + rewrite lookup_delete_eq, !lookup_delete_ne, Hv by done. simpl.
      by rewrite Hfalsy.
    + rewrite lookup_delete_eq, !lookup_delete_ne, Hv by done. simpl.
      by rewrite Hor.
  - intros t s dt. unfold Build.post_fields. simpl.
    destruct (truthy (default VNone (m !! "slug"%string))) eqn:Es.
    + simpl. destruct (fromisoformat L _) as [e|d] eqn:Ed; simpl; [done|].
      intros [= <- <- <-]. repeat split; try done.
      * unfold py_or. by intros ->.
      * intros Hd. unfold py_or in Ed. by rewrite Hd in Ed.
    + destruct (py_or (default VNone (m !! "title"%string)) (VStr file_stem))
        as [|x|b x] eqn:Et; simpl; try done.
      destruct (fromisoformat L _) as [e|d] eqn:Ed; simpl; [done|].
      intros [= <- <- <-]. repeat split.
      * unfold py_or in Et. intros Ht. by rewrite Ht in Et.
      * intros Hd. unfold py_or in Ed. by rewrite Hd in Ed.
  - intros d0 Ht Hd Htoday. unfold Build.post_fields. simpl.
    unfold py_or. rewrite Ht, Hd. simpl. rewrite Htoday. simpl.
    destruct (truthy (default VNone (m !! "slug"%string))); by eexists.
Qed.

Lemma falsy_front_matter_falls_back_witness :
  Build.post_fields Demo.lib Demo.inputs
    (DMap Demo.blank_map) "c"
  = Build.post_fields Demo.lib Demo.inputs
      (DMap (delete "title"%string
               Demo.blank_map)) "c"
  /\ exists s,
       Build.post_fields Demo.lib Demo.inputs
         (DMap Demo.blank_map) "c"
       = Ok (VStr "c", s, Demo.jan_1).
Proof.
  split.
  - apply (proj1 (falsy_front_matter_falls_back Demo.lib Demo.inputs
                    Demo.blank_map
                    "c") "title"%string (VStr EmptyString)).
    + left. reflexivity.
    + vm_compute. reflexivity.
    + reflexivity.
  - apply (proj2 (proj2 (falsy_front_matter_falls_back Demo.lib Demo.inputs
                    Demo.blank_map
                    "c")) Demo.jan_1).
    + vm_compute. reflexivity.
    + vm_compute. reflexivity.
    + vm_compute. reflexivity.
Defined.

(** * Further properties *)

(** ** Slugs, titles and file names *)

Module SlugMore.
Import PyStr PyStrFacts ReFacts.







Lemma rfind_dot_app (l suffix : str) i :
  Build.rfind_dot suffix = Some i ->
  Build.rfind_dot (l ++ suffix) = Some (length l + i).
Proof.
  intros H. induction l as [|c l IH]; simpl; [done|]. by rewrite IH.
Qed.

Lemma rfind_dot_md (l : str) :
  Build.rfind_dot (l ++ list_ascii_of_string ".md") = Some (length l).
Proof.
  rewrite (rfind_dot_app l _ 0); [|done]. f_equal. lia.
Qed.

Lemma list_ascii_of_string_app (a b : string) :
  list_ascii_of_string (a ++ b)
  = list_ascii_of_string a ++ list_ascii_of_string b.
Proof. induction a as [|c a IH]; simpl; [done|]. by rewrite IH. Qed.

Lemma stem_not_empty (name : string) :
  name <> EmptyString -> Build.stem name <> EmptyString.
Proof.
  intros Hne. unfold Build.stem.
  destruct (Build.rfind_dot (list_ascii_of_string name)) as [i|]; [|done].
  destruct (andb _ _) eqn:E; [|done].
  apply andb_prop in E as [Hi Hlen].
  apply Nat.ltb_lt in Hi, Hlen.
  destruct i as [|i]; [lia|].
  destruct (list_ascii_of_string name) as [|c l]; [simpl in Hlen; lia|].
  done.
Qed.

End SlugMore.

(** X1.  A slug derived from the title holds only lowercase ASCII
    letters, digits and hyphens, and has no hyphen at either end. *)
Theorem derived_slug_is_url_safe
    (L : Lib) (I : Inputs) (m : gmap string pyval) (file_stem : string)
    (t s : pyval) (dt : datetime) :
  truthy (default VNone (m !! "slug"%string)) = false ->
  Build.post_fields L I (DMap m) file_stem = Ok (t, s, dt) ->
  exists x, s = VStr x /\ Spec.slug_shaped x = true.
Proof.
  intros Hslug. unfold Build.post_fields. simpl. rewrite Hslug.
  destruct (py_or (default VNone (m !! "title"%string)) (VStr file_stem))
    as [|x|b x]; simpl; try done.
  destruct (fromisoformat L _) as [e|d]; simpl; [done|].
  intros [= <- <- <-]. eexists. split; [done|].
  apply SlugFacts.slugify_shaped.
Qed.

Lemma derived_slug_is_url_safe_witness :
  exists x, VStr "hello-world" = VStr x /\ Spec.slug_shaped x = true.
Proof.
  apply (derived_slug_is_url_safe Demo.lib Demo.inputs
           {[ "title" := VStr "Hello World"; "date" := VObj true "2024-01-01" ]}
           "a" (VStr "Hello World") (VStr "hello-world") Demo.jan_1).
  - reflexivity.
  - vm_compute. reflexivity.
Defined.


(** X3.  The stem of a file name that ends in [.md] after a non-empty
    name is that name, dots inside it included. *)
Theorem stem_of_md_name (name : string) :
  name <> EmptyString -> Build.stem (name ++ ".md") = name.
Proof.
  intros Hne. unfold Build.stem.
  rewrite SlugMore.list_ascii_of_string_app, SlugMore.rfind_dot_md.
  assert (list_ascii_of_string name <> []) as Hl.
  { intros H. apply Hne. rewrite <- (string_of_list_ascii_of_string name).
    by rewrite H. }
  destruct (list_ascii_of_string name) as [|c l] eqn:E; [done|].
  replace ((0 <? length (c :: l))%nat) with true by done.
  replace ((length (c :: l)
            <? length ((c :: l) ++ list_ascii_of_string ".md") - 1)%nat)
    with true.
  - simpl andb. cbv iota. rewrite take_app_length.
    rewrite <- E. apply string_of_list_ascii_of_string.
  - symmetry. apply Nat.ltb_lt. rewrite length_app. simpl. lia.
Qed.

Lemma stem_of_md_name_witness :
  Build.stem ("notes.2024" ++ ".md") = "notes.2024"%string.
Proof. apply (stem_of_md_name "notes.2024"). discriminate. Defined.


(** ** Front matter and reading time *)

Module TextMore.
Import PyStr PyStrFacts ReFacts Spec FrontMatter FrontMatterFacts ReadingTime
       ReadingTimeFacts.

Lemma startswith_split (s sep : str) :
  startswith s sep = true -> s = sep ++ drop (length sep) s.
Proof.
  revert s. induction sep as [|p sep IH]; intros s H; [done|].
  destruct s as [|c s]; [done|]. simpl in H.
  apply andb_prop in H as [Hc Hs]. apply Ascii.eqb_eq in Hc as ->.
  simpl. f_equal. by apply IH.
Qed.

(** Where the separator occurs there is a leftmost occurrence. *)
Lemma first_occurrence_exists (sep s : str) :
  0 < occurrences sep s -> exists a b, first_occurrence sep s a b.
Proof.
  induction s as [|c r IH]; [simpl; lia|].
  cbn [occurrences]. intros Hocc.
  destruct (startswith (c :: r) sep) eqn:E.
  - exists [], (drop (length sep) (c :: r)). split.
    + by apply startswith_split.
    + simpl. lia.
  - destruct IH as (a & b & Hab & Hfirst); [lia|].
    exists (c :: a), b. split; [simpl; by rewrite <- Hab|].
    intros [|j] Hj; [done|]. apply Hfirst. simpl in Hj. lia.
Qed.

(** A string without a tag goes through [strip_tags] unchanged. *)
Lemma strip_tags_fixed (s : str) : tag_free s -> strip_tags s = s.
Proof.
  induction s as [|c r IH]; intros Hfree; [done|].
  destruct (Re.match_tag (c :: r)) as [n|] eqn:E.
  - apply match_tag_some in E as (body & rest & Hs & Hne & Hb & _).
    exfalso. apply (Hfree [] ("<"%char :: body ++ [">"%char]) rest).
    + rewrite Hs. simpl. by rewrite <- app_assoc.
    + exists body. repeat split; [done|]. by apply Forall_not_gt.
  - rewrite strip_tags_char by done. f_equal. apply IH.
    intros pre t post Heq. apply (Hfree (c :: pre) t post). simpl.
    by rewrite Heq.
Qed.

Lemma py_round_div_one_iff w :
  (0 <= w)%Z -> (minutes_of w = 1 <-> w < 300)%Z.
Proof.
  intros Hw. unfold minutes_of.
  destruct (py_round_div_nearest w) as [Hnear Htie].
  split.
  - intros H. destruct (Z.lt_ge_cases w 300) as [|Hge]; [done|exfalso].
    destruct (Z.eq_dec w 300%Z) as [->|Hne].
    + assert (py_round_div 300 200 = 2%Z) as Hr by done.
      rewrite Hr in H. lia.
    + lia.
  - lia.
Qed.

End TextMore.

(** X4.  When a text opens with the delimiter and the parser returns,
    the body it returns neither begins nor ends with whitespace. *)
Theorem parse_frontmatter_body_trimmed
    (safe_load : string -> result document) (text : string)
    (data : document) (body : string) :
  PyStr.startswith (list_ascii_of_string text) FrontMatter.delimiter = true ->
  FrontMatter.parse_frontmatter safe_load text = Ok (data, body) ->
  Layout.trimmed body.
Proof.
  intros Hstart. unfold FrontMatter.parse_frontmatter. rewrite Hstart.
  destruct (PyStr.split _ _ _) as [|a [|fm [|rest [|]]]]; try done.
  destruct (safe_load _) as [e|d]; simpl; [done|].
  intros [= _ <-]. unfold Layout.trimmed.
  rewrite list_ascii_of_string_of_list_ascii. split.
  - destruct (PyStr.strip PyStr.is_space rest) as [|c r] eqn:E; [done|].
    by apply PyStrFacts.strip_head in E.
  - destruct (rev (PyStr.strip PyStr.is_space rest)) as [|c r] eqn:E; [done|].
    by apply PyStrFacts.strip_last in E.
Qed.

Lemma parse_frontmatter_body_trimmed_witness :
  Layout.trimmed "A <b>later</b> post.".
Proof.
  apply (parse_frontmatter_body_trimmed Demo.safe_load Demo.post_june
           (DMap {[ "date"%string := VObj true "2024-06-01" ]})
           "A <b>later</b> post.").
  - reflexivity.
  - vm_compute. reflexivity.
Defined.

(** X5.  A text that opens with the delimiter and holds a further one
    is always split in three: the parser then hands the segment up to
    the leftmost further delimiter to the loader, and fails only if the
    loader does. *)
Theorem parse_frontmatter_closed
    (safe_load : string -> result document) (text : string) :
  PyStr.startswith (list_ascii_of_string text) FrontMatter.delimiter = true ->
  0 < Spec.occurrences FrontMatter.delimiter
        (drop 3 (list_ascii_of_string text)) ->
  exists fm rest,
    Spec.first_occurrence FrontMatter.delimiter
      (drop 3 (list_ascii_of_string text)) fm rest
    /\ FrontMatter.parse_frontmatter safe_load text
       = rbind (safe_load (string_of_list_ascii fm)) (fun data =>
           Ok (doc_or_empty data,
               string_of_list_ascii (PyStr.strip PyStr.is_space rest))).
Proof.
  intros Hstart Hocc.
  destruct (TextMore.first_occurrence_exists _ _ Hocc) as (fm & rest & Hfirst).
  exists fm, rest. split; [done|].
  by apply FrontMatterFacts.parse_delimited.
Qed.

Lemma parse_frontmatter_closed_witness :
  exists fm rest,
    Spec.first_occurrence FrontMatter.delimiter
      (drop 3 (list_ascii_of_string Demo.post_hello)) fm rest
    /\ FrontMatter.parse_frontmatter Demo.safe_load Demo.post_hello
       = rbind (Demo.safe_load (string_of_list_ascii fm)) (fun data =>
           Ok (doc_or_empty data,
               string_of_list_ascii (PyStr.strip PyStr.is_space rest))).
Proof.
  apply (parse_frontmatter_closed Demo.safe_load Demo.post_hello).
  - reflexivity.
  - vm_compute. lia.
Defined.

(** X6.  Removing the tags a second time changes nothing, so the reading
    time of a text and of its tag-free form are the same. *)
Theorem strip_tags_idempotent (text : string) :
  ReadingTime.strip_tags (ReadingTime.strip_tags (list_ascii_of_string text))
  = ReadingTime.strip_tags (list_ascii_of_string text)
  /\ ReadingTime.calculate_reading_time
       (string_of_list_ascii
          (ReadingTime.strip_tags (list_ascii_of_string text)))
     = ReadingTime.calculate_reading_time text.
Proof.
  assert (ReadingTime.strip_tags
            (ReadingTime.strip_tags (list_ascii_of_string text))
          = ReadingTime.strip_tags (list_ascii_of_string text)) as H
    by apply TextMore.strip_tags_fixed, ReadingTimeFacts.strip_tags_tag_free.
  split; [done|].
  unfold ReadingTime.calculate_reading_time,
    ReadingTime.calculate_reading_time_chars, ReadingTime.word_count.
  by rewrite list_ascii_of_string_of_list_ascii, H.
Qed.

(** X7.  The reading time is one minute exactly for the texts of fewer
    than 300 words: 300 words, a tie between one and two, go to two. *)
Theorem one_minute_below_300_words (text : string) :
  (snd (ReadingTime.calculate_reading_time text) = 1
   <-> fst (ReadingTime.calculate_reading_time text) < 300)%Z.
Proof.
  simpl. apply TextMore.py_round_div_one_iff.
  unfold ReadingTime.word_count. lia.
Qed.

Lemma one_minute_below_300_words_witness :
  snd (ReadingTime.calculate_reading_time "<p>Two words</p>") = 1%Z.
Proof.
  apply (proj2 (one_minute_below_300_words "<p>Two words</p>")).
  vm_compute. reflexivity.
Defined.

(** ** What the builders leave on the trace *)

Module ShapeFacts.
Import PyStr Build BuildFacts Layout.

(** A computation is framed when its result and the events it appends
    do not depend on the trace it starts from. *)
Lemma framed_ret {A} (a : A) :
  exists r evs, forall tr, ret a tr = (r, tr ++ evs).
Proof. exists (inr a), []. intros tr. by rewrite app_nil_r. Qed.

Lemma framed_lift {A} (x : result A) :
  exists r evs, forall tr, lift x tr = (r, tr ++ evs).
Proof. exists x, []. intros tr. by rewrite app_nil_r. Qed.

Lemma framed_emit ev :
  exists r evs, forall tr, emit ev tr = (r, tr ++ evs).
Proof. by exists (inr tt), [ev]. Qed.

Lemma framed_bind {A B} (c : M A) (k : A -> M B) :
  (exists r evs, forall tr, c tr = (r, tr ++ evs)) ->
  (forall a, exists r evs, forall tr, k a tr = (r, tr ++ evs)) ->
  exists r evs, forall tr, bind c k tr = (r, tr ++ evs).
Proof.
  intros (r & evs & Hc) Hk. destruct r as [e|a].
  - exists (inl e), evs. intros tr. unfold bind. by rewrite Hc.
  - destruct (Hk a) as (r2 & evs2 & Hka).
    exists r2, (evs ++ evs2). intros tr. unfold bind.
    by rewrite Hc, Hka, app_assoc.
Qed.

Ltac framed_step :=
  first
    [ apply framed_ret
    | apply framed_lift
    | apply framed_emit
    | apply framed_bind; [|intros ?] ].

Lemma bind_lift_raise {A B} (x : result A) (k : A -> M B) tr e tr' :
  bind (lift x) k tr = (inl e, tr') ->
  (x = inl e /\ tr' = tr) \/ exists a, x = inr a /\ k a tr = (inl e, tr').
Proof.
  unfold bind, lift. destruct x as [e0|a].
  - intros [= <- <-]. by left.
  - intros H. right. by exists a.
Qed.

Ltac inv_lift H :=
  let x := fresh "x" in
  let t := fresh "tr" in
  let E := fresh "E" in
  apply bind_ok in H as (x & t & E & H); injection E as E <-.

Ltac inv_emit H :=
  let t := fresh "tr" in
  let E := fresh "E" in
  apply bind_ok in H as ([] & t & E & H); injection E as <-.

Section RunShape.
Variable L : Lib.
Variable I : Inputs.

Lemma framed_build_post site f :
  exists r evs, forall tr, build_post L I site f tr = (r, tr ++ evs).
Proof.
  unfold build_post. destruct f as [name raw].
  apply framed_bind; [apply framed_lift|]. intros [fm body].
  apply framed_bind; [apply framed_lift|]. intros [[t s] dt].
  destruct (ReadingTime.calculate_reading_time _) as [w m].
  repeat framed_step.
Qed.

Lemma build_post_ok site name raw tr s tr' :
  build_post L I site (name, raw) tr = (inr s, tr') ->
  exists fm body t html,
    parse_frontmatter L raw = Ok (fm, body)
    /\ post_fields L I fm (stem name) = Ok (t, slug s, date s)
    /\ t = VStr (title s)
    /\ tr' = tr ++ [EvMkdir (DIST </> "posts"); EvWrite (post_path s) html].
Proof.
  unfold build_post. intros H.
  apply bind_ok in H as ([fm body] & tr1 & Hparse & H).
  injection Hparse as Hparse <-.
  apply bind_ok in H as ([[t sl] dt] & tr1 & Hfields & H).
  injection Hfields as Hfields <-.
  destruct (ReadingTime.calculate_reading_time _) as [w m].
  do 9 inv_lift H. do 2 inv_emit H.
  injection H as <- <-.
  exists fm, body, t. eexists. simpl.
  repeat split; try done.
  - destruct t as [|y|b y]; try done.
  - by rewrite <- app_assoc.
Qed.

(** A post that fails leaves nothing on the trace. *)
Lemma build_post_raise site f tr e tr' :
  build_post L I site f tr = (inl e, tr') -> tr' = tr.
Proof.
  unfold build_post. destruct f as [name raw]. intros H.
  apply bind_lift_raise in H as [[_ ->]|([fm body] & _ & H)]; [done|].
  apply bind_lift_raise in H as [[_ ->]|([[t sl] dt] & _ & H)]; [done|].
  destruct (ReadingTime.calculate_reading_time _) as [w m].
  do 9 (apply bind_lift_raise in H as [[_ ->]|(? & _ & H)]; [done|]).
  unfold bind, emit, ret in H. done.
Qed.

Lemma build_post_at site name raw tr s tr' :
  build_post L I site (name, raw) tr = (inr s, tr') ->
  exists html,
    forall tr0,
      build_post L I site (name, raw) tr0
      = (inr s, tr0 ++ [EvMkdir (DIST </> "posts"); EvWrite (post_path s) html]).
Proof.
  intros H.
  destruct (build_post_ok _ _ _ _ _ _ H) as (_ & _ & _ & html & _ & _ & _ & ->).
  exists html. intros tr0.
  destruct (framed_build_post site (name, raw)) as (r & evs & Hframe).
  rewrite Hframe in H. injection H as -> H.
  apply app_inv_head in H as ->. apply Hframe.
Qed.

Lemma build_post_raise_at site f tr e tr' :
  build_post L I site f tr = (inl e, tr') ->
  forall tr0, build_post L I site f tr0 = (inl e, tr0).
Proof.
  intros H tr0. pose proof (build_post_raise _ _ _ _ _ H) as ->.
  destruct (framed_build_post site f) as (r & evs & Hframe).
  rewrite Hframe in H. injection H as -> H.
  rewrite <- (app_nil_r tr) in H at 2. apply app_inv_head in H as ->.
  by rewrite Hframe, app_nil_r.
Qed.

(** The loop writes the pages of the posts it gets through, in order,
    and nothing else; it returns when it gets through all of them, and
    raises what the first post that fails raises. *)
Lemma post_loop_shape site files acc tr r tr' :
  post_loop L I site files acc tr = (r, tr') ->
  exists pages,
    tr' = tr ++ page_events pages
    /\ Forall2
         (fun f p => forall tr0,
              build_post L I site f tr0
              = (inr (fst p),
                 tr0 ++ [EvMkdir (DIST </> "posts");
                         EvWrite (post_path (fst p)) (snd p)]))
         (take (length pages) files) pages
    /\ match r with
       | inr out => out = acc ++ map fst pages /\ length pages = length files
       | inl e =>
           exists f,
             files !! length pages = Some f
             /\ forall tr0, build_post L I site f tr0 = (inl e, tr0)
       end.
Proof.
  revert acc tr. induction files as [|[name raw] files IH]; intros acc tr; simpl.
  - intros [= <- <-]. exists []. simpl. by rewrite !app_nil_r.
  - intros H.
    destruct (build_post L I site (name, raw) tr) as [[e|s] tr1] eqn:Hf.
    + rewrite (bind_raise _ _ _ _ _ Hf) in H. injection H as <- <-.
      pose proof (build_post_raise_at _ _ _ _ _ Hf) as Hat.
      apply build_post_raise in Hf as ->.
      exists []. simpl. rewrite app_nil_r. repeat split; [constructor|].
      by exists (name, raw).
    + rewrite (bind_step _ _ _ _ _ Hf) in H.
      destruct (build_post_at _ _ _ _ _ _ Hf) as (html & Hat).
      rewrite Hat in Hf. injection Hf as <-.
      apply IH in H as (pages & -> & Hall & Hr).
      exists ((s, html) :: pages). simpl. split; [by rewrite <- app_assoc|].
      split; [by constructor|].
      destruct r as [e|out].
      * done.
      * destruct Hr as [-> Hlen]. rewrite <- app_assoc. simpl. split; [done|lia].
Qed.

(** The post builder: the pages of a leading part of the posts, taken
    in the order of the file names, and either the sorted list or the
    exception of the loop or of the sort. *)
Lemma build_posts_shape site tr r tr' :
  build_posts L I site tr = (r, tr') ->
  exists files pages,
    sorted_posts I = Ok files
    /\ tr' = tr ++ page_events pages
    /\ Forall2
         (fun f p => forall tr0,
              build_post L I site f tr0
              = (inr (fst p),
                 tr0 ++ [EvMkdir (DIST </> "posts");
                         EvWrite (post_path (fst p)) (snd p)]))
         (take (length pages) files) pages
    /\ ((exists e f,
            r = inl e
            /\ files !! length pages = Some f
            /\ forall tr0, build_post L I site f tr0 = (inl e, tr0))
        \/ (length pages = length files
            /\ r = PySort.sort dt_lt date true (map fst pages))).
Proof.
  unfold build_posts. intros H.
  destruct (sorted_posts_returns I) as [files Hfiles].
  rewrite (bind_step _ _ tr files tr) in H by (unfold lift; by rewrite Hfiles).
  destruct (post_loop L I site files [] tr) as [r1 tr1] eqn:Hloop.
  destruct (post_loop_shape _ _ _ _ _ _ Hloop) as (pages & -> & Hall & Hr).
  exists files, pages. destruct r1 as [e|sums].
  - rewrite (bind_raise _ _ _ _ _ Hloop) in H. injection H as <- <-.
    repeat split; try done. left. destruct Hr as (f & Hf & Hat).
    by exists e, f.
  - rewrite (bind_step _ _ _ _ _ Hloop) in H. injection H as <- <-.
    destruct Hr as [-> Hlen]. repeat split; try done. by right.
Qed.

Lemma render_ok tpl ctx html :
  render L I tpl ctx = Ok html -> is_Some (templates I !! tpl).
Proof.
  unfold render, Jinja.render, Jinja.get_template.
  destruct (templates I !! tpl); [by eexists|done].
Qed.

Lemma copy_static_ok site tr tr' :
  copy_static I site tr = (inr tt, tr') ->
  static_styles I = true /\ static_404 I = true
  /\ tr' = tr ++ [EvCopy ["static"; "styles.css"]%string (DIST </> "styles.css");
                  EvCopy ["static"; "404.html"]%string (DIST </> "404.html")].
Proof.
  unfold copy_static, bind, lift, emit.
  destruct (static_styles I); [|done]. destruct (static_404 I); [|done].
  intros [= <-]. by rewrite <- app_assoc.
Qed.

Lemma build_about_ok site tr tr' :
  build_about L I site tr = (inr tt, tr') ->
  match about_md I with
  | None => tr' = tr
  | Some _ => exists out, tr' = tr ++ [EvWrite (DIST </> "about.html") out]
  end.
Proof.
  unfold build_about. destruct (about_md I) as [raw|].
  - intros H. apply bind_ok in H as ([fm body] & tr1 & E & H).
    injection E as E <-. do 7 inv_lift H.
    unfold emit in H. injection H as <-. by eexists.
  - by intros [= <-].
Qed.

Lemma build_index_ok site posts tr tr' :
  build_index L I site posts tr = (inr tt, tr') ->
  exists m ctx html,
    site = DMap m
    /\ is_Some (m !! "site_name"%string) /\ is_Some (m !! "author"%string)
    /\ render L I "index.html" ctx = Ok html
    /\ In ("posts"%string, CPosts posts) ctx
    /\ tr' = tr ++ [EvWrite (DIST </> "index.html") html].
Proof.
  unfold build_index. intros H. do 9 inv_lift H.
  unfold emit in H. injection H as <-.
  destruct site as [m|v]; [|done]. simpl in E0, E1.
  exists m. eexists _, _. repeat split.
  - destruct (m !! "site_name"%string); [by eexists|done].
  - destruct (m !! "author"%string); [by eexists|done].
  - exact E7.
  - do 6 right. by left.
Qed.

Lemma build_feed_ok site posts tr tr' :
  build_feed L I site posts tr = (inr tt, tr') ->
  exists ctx xml,
    render L I "feed.xml" ctx = Ok xml
    /\ In ("posts"%string, CPosts posts) ctx
    /\ tr' = tr ++ [EvWrite (DIST </> "feed.xml") xml].
Proof.
  unfold build_feed. intros H. do 4 inv_lift H.
  unfold emit in H. injection H as <-.
  eexists _, _. repeat split.
  - exact E2.
  - do 3 right. by left.
Qed.

Lemma main_prelude_ok tr site tr' :
  main_prelude L I tr = (inr site, tr') ->
  exists text about_evs,
    site_yml I = Some text /\ safe_load L text = Ok site
    /\ static_styles I = true /\ static_404 I = true
    /\ match about_md I with
       | None => about_evs = []
       | Some _ => exists out, about_evs = [EvWrite (DIST </> "about.html") out]
       end
    /\ tr' = tr ++ (if dist_exists I then [EvRmtree DIST] else [])
               ++ [EvMkdir DIST;
                   EvCopy ["static"; "styles.css"]%string (DIST </> "styles.css");
                   EvCopy ["static"; "404.html"]%string (DIST </> "404.html")]
               ++ about_evs.
Proof.
  unfold main_prelude. intros H.
  apply bind_ok in H as (site0 & tr1 & Hload & H).
  unfold load_site in Hload. destruct (site_yml I) as [text|]; [|done].
  injection Hload as Hload <-.
  apply bind_ok in H as ([] & tr2 & Hwipe & H).
  apply bind_ok in H as ([] & tr3 & Hmk & H). injection Hmk as <-.
  apply bind_ok in H as ([] & tr4 & Hcopy & H).
  apply copy_static_ok in Hcopy as (Hs & H4 & ->).
  apply bind_ok in H as ([] & tr5 & Habout & H).
  apply build_about_ok in Habout. injection H as <- <-.
  exists text.
  assert (tr2 = tr ++ (if dist_exists I then [EvRmtree DIST] else [])) as ->.
  { destruct (dist_exists I); [by injection Hwipe as <-|].
    injection Hwipe as <-. by rewrite app_nil_r. }
  destruct (about_md I) as [raw|].
  - destruct Habout as [out ->]. exists [EvWrite (DIST </> "about.html") out].
    repeat split; try done; [by eexists|]. by rewrite <- !app_assoc.
  - subst tr5. exists []. repeat split; try done.
    by rewrite <- !app_assoc, app_nil_r.
Qed.
End RunShape.
End ShapeFacts.

(** ** Sorting the summaries *)

Module SortMore.
Import Layout.

Lemma dt_lt_aware a b r :
  dt_lt a b = Ok r -> dt_aware a = dt_aware b.
Proof.
  unfold dt_lt. destruct (Bool.eqb _ _) eqn:E; [|done].
  intros _. by apply eqb_prop.
Qed.

Lemma dt_lt_raise a b e : dt_lt a b = Raise e -> e = TypeError.
Proof.
  unfold dt_lt. destruct (Bool.eqb _ _); [done|]. by intros [= <-].
Qed.

Lemma uniform_perm l l' :
  Permutation l l' -> uniform_dates l -> uniform_dates l'.
Proof.
  intros Hp Hu a b Ha Hb.
  apply Hu; eapply Permutation_in; try (symmetry; exact Hp); done.
Qed.

Lemma insert_uniform x l l' :
  PySort.insert dt_lt date x l = Ok l' ->
  uniform_dates l -> uniform_dates (x :: l).
Proof.
  destruct l as [|y l]; intros H Hu.
  - intros a b [<-|[]] [<-|[]]. done.
  - simpl in H. destruct (dt_lt (date x) (date y)) as [e|r] eqn:E; [done|].
    apply dt_lt_aware in E.
    assert (forall a, In a (x :: y :: l) -> dt_aware (date a) = dt_aware (date y))
      as Hy.
    { intros a [<-|Ha]; [done|]. apply Hu; [done|by left]. }
    intros a b Ha Hb. by rewrite (Hy a Ha), (Hy b Hb).
Qed.

Lemma insert_all_uniform acc l out :
  PySort.insert_all dt_lt date acc l = Ok out ->
  uniform_dates acc -> uniform_dates (acc ++ l).
Proof.
  revert acc. induction l as [|x l IH]; intros acc H Hu; simpl in H.
  - by rewrite app_nil_r.
  - destruct (PySort.insert dt_lt date x acc) as [e|acc'] eqn:E; [done|].
    simpl in H.
    pose proof (insert_uniform _ _ _ E Hu) as Hx.
    assert (Permutation acc' (x :: acc)) as Hp.
    { apply (PySortFacts.insert_perm dt_lt date _ _ _ E). }
    apply (uniform_perm (acc' ++ l)).
    + rewrite Hp. simpl. apply Permutation_middle.
    + apply IH; [done|]. eapply uniform_perm; [symmetry; exact Hp|done].
Qed.

(** The sort returns only on dates that are all naive or all aware. *)
Lemma sort_ok_uniform reverse l out :
  PySort.sort dt_lt date reverse l = Ok out -> uniform_dates l.
Proof.
  unfold PySort.sort, PySort.sort_asc. destruct reverse.
  - destruct (PySort.insert_all dt_lt date [] (rev l)) as [e|r] eqn:E; [done|].
    intros _. apply insert_all_uniform in E; [|by intros a b []].
    simpl in E. eapply uniform_perm; [symmetry; apply Permutation_rev|done].
  - intros H. apply insert_all_uniform in H; [done|by intros a b []].
Qed.

Lemma insert_raise x l e :
  PySort.insert dt_lt date x l = Raise e -> e = TypeError.
Proof.
  induction l as [|y l IH]; simpl; [done|].
  destruct (dt_lt (date x) (date y)) as [e0|[]] eqn:E; simpl.
  - intros [= <-]. by apply dt_lt_raise in E.
  - done.
  - destruct (PySort.insert dt_lt date x l) as [e1|r]; simpl; [|done].
    intros [= <-]. by apply IH.
Qed.

Lemma insert_all_raise acc l e :
  PySort.insert_all dt_lt date acc l = Raise e -> e = TypeError.
Proof.
  revert acc. induction l as [|x l IH]; intros acc; simpl; [done|].
  destruct (PySort.insert dt_lt date x acc) as [e1|acc'] eqn:E; simpl.
  - intros [= <-]. by apply insert_raise in E.
  - apply IH.
Qed.

(** The sort raises nothing but the error of a comparison. *)
Lemma sort_raise reverse l e :
  PySort.sort dt_lt date reverse l = Raise e -> e = TypeError.
Proof.
  unfold PySort.sort, PySort.sort_asc. destruct reverse.
  - destruct (PySort.insert_all dt_lt date [] (rev l)) as [e1|r] eqn:E; [|done].
    intros [= <-]. by apply insert_all_raise in E.
  - apply insert_all_raise.
Qed.


End SortMore.





(** X10.  When every post builds, the post builder returns exactly if
    the dates are all naive or all aware: it then returns a
    rearrangement of the summaries; with one naive and one aware date
    it raises [TypeError] from the sort, after all the pages are
    written. *)
Theorem sort_needs_comparable_dates
    (L : Lib) (I : Inputs) (site : document)
    (tr : list event) (files : list (string * string))
    (sums : list summary) (tr1 : list event) :
  Build.sorted_posts I = Ok files ->
  Build.post_loop L I site files [] tr = (Ok sums, tr1) ->
  (Layout.uniform_dates sums ->
   exists posts,
     Build.build_posts L I site tr = (Ok posts, tr1)
     /\ Permutation posts sums)
  /\ (forall a b,
        In a sums -> In b sums ->
        dt_aware (date a) <> dt_aware (date b) ->
        Build.build_posts L I site tr = (Raise TypeError, tr1)).
Proof.
  intros Hfiles Hloop.
  assert (Build.build_posts L I site tr
          = (PySort.sort dt_lt date true sums, tr1)) as Hposts.
  { unfold Build.build_posts.
    rewrite (BuildFacts.bind_step _ _ tr files tr)
      by (unfold lift; by rewrite Hfiles).
    by rewrite (BuildFacts.bind_step _ _ _ _ _ Hloop). }
  rewrite Hposts. split.
  - intros Hu.
    destruct (PySortReturns.sort_returns dt_lt date true sums) as [out Hout].
    { intros x y Hx Hy. unfold dt_lt.
      rewrite (Hu x y Hx Hy), Bool.eqb_reflx. by eexists. }
    exists out. rewrite Hout. split; [done|].
    apply (PySortFacts.sort_reverse_spec dt_lt dt_ltb date
             OrderFacts.dt_lt_ltb OrderFacts.dt_ltb_asym
             OrderFacts.dt_ltb_cotrans
             (mk_datetime 0 false EmptyString EmptyString EmptyString)
             sums out Hout).
  - intros a b Ha Hb Hab.
    destruct (PySort.sort dt_lt date true sums) as [e|out] eqn:E.
    + by rewrite (SortMore.sort_raise _ _ _ E).
    + exfalso. apply Hab. by apply (SortMore.sort_ok_uniform _ _ _ E).
Qed.

Lemma sort_needs_comparable_dates_witness :
  Build.build_posts DemoZones.lib DemoZones.inputs Demo.site []
  = (Raise TypeError, snd DemoZones.looped).
Proof.
  assert (Build.sorted_posts DemoZones.inputs
          = Ok (posts_glob DemoZones.inputs)) as Hfiles
    by (vm_compute; reflexivity).
  assert (Build.post_loop DemoZones.lib DemoZones.inputs Demo.site
            (posts_glob DemoZones.inputs) [] []
          = (Ok DemoZones.summaries, snd DemoZones.looped)) as Hloop
    by (vm_compute; reflexivity).
  eapply (proj2 (sort_needs_comparable_dates
                   DemoZones.lib DemoZones.inputs Demo.site []
                   (posts_glob DemoZones.inputs) DemoZones.summaries
                   (snd DemoZones.looped) Hfiles Hloop)).
  - cbv [DemoZones.summaries DemoZones.looped fst]. left. reflexivity.
  - cbv [DemoZones.summaries DemoZones.looped fst]. right. left. reflexivity.
  - simpl. discriminate.
Defined.

(** ** The whole run *)

Module RunMore.
Import PyStr Build BuildFacts Layout ShapeFacts.

Lemma only_ret {A} P (a : A) : emits_only P (ret a).
Proof. intros tr r tr' [= <- <-]. exists []. by rewrite app_nil_r. Qed.

Lemma only_lift {A} P (x : result A) : emits_only P (lift x).
Proof. intros tr r tr' [= <- <-]. exists []. by rewrite app_nil_r. Qed.

Lemma only_emit (P : event -> bool) ev : P ev = true -> emits_only P (emit ev).
Proof.
  intros Hev tr r tr' [= <- <-]. exists [ev]. split; [done|]. by constructor.
Qed.

Lemma only_bind {A B} P (c : M A) (k : A -> M B) :
  emits_only P c -> (forall a, emits_only P (k a)) -> emits_only P (bind c k).
Proof.
  intros Hc Hk tr r tr'. unfold bind.
  destruct (c tr) as [[e|a] tr1] eqn:E.
  - intros [= <- <-]. by apply (Hc tr (inl e)).
  - intros H. destruct (Hc _ _ _ E) as (evs1 & -> & H1).
    destruct (Hk a _ _ _ H) as (evs2 & -> & H2).
    exists (evs1 ++ evs2). split; [by rewrite app_assoc|].
    by apply Forall_app.
Qed.

Ltac only_step :=
  first
    [ apply only_ret
    | apply only_lift
    | apply only_emit; reflexivity
    | apply only_bind; [|intros ?] ].

Section RunKeeps.
Variable L : Lib.
Variable I : Inputs.

Lemma keeps_copy_static site : emits_only keeps (copy_static I site).
Proof.
  unfold copy_static.
  apply only_bind; [|intros _]; destruct (_ I); repeat only_step.
Qed.

Lemma keeps_build_about site : emits_only keeps (build_about L I site).
Proof.
  unfold build_about. destruct (about_md I); [|apply only_ret].
  apply only_bind; [apply only_lift|]. intros [fm body].
  repeat only_step.
Qed.

Lemma keeps_build_post site f : emits_only keeps (build_post L I site f).
Proof.
  unfold build_post. destruct f as [name raw].
  apply only_bind; [apply only_lift|]. intros [fm body].
  apply only_bind; [apply only_lift|]. intros [[t s] dt].
  destruct (ReadingTime.calculate_reading_time _) as [w m].
  repeat only_step.
Qed.

Lemma keeps_post_loop site files acc :
  emits_only keeps (post_loop L I site files acc).
Proof.
  revert acc. induction files as [|f files IH]; intros acc; simpl.
  - apply only_ret.
  - apply only_bind; [apply keeps_build_post|]. intros s. apply IH.
Qed.

Lemma keeps_build_posts site : emits_only keeps (build_posts L I site).
Proof.
  unfold build_posts.
  apply only_bind; [apply only_lift|]. intros files.
  apply only_bind; [apply keeps_post_loop|]. intros posts.
  apply only_lift.
Qed.

Lemma keeps_build_index site posts : emits_only keeps (build_index L I site posts).
Proof. unfold build_index. repeat only_step. Qed.

Lemma keeps_build_feed site posts : emits_only keeps (build_feed L I site posts).
Proof. unfold build_feed. repeat only_step. Qed.

Lemma build_post_needs site name raw tr s tr' :
  build_post L I site (name, raw) tr = (inr s, tr') ->
  exists m n,
    site = DMap m
    /\ m !! "site_name"%string = Some (VStr n)
    /\ is_Some (templates I !! "post.html"%string)
    /\ iso_date s = dt_iso_date (date s)
    /\ human_date s = dt_human (date s)
    /\ rfc2822 s = dt_rfc2822 (date s).
Proof.
  unfold build_post. intros H.
  apply bind_ok in H as ([fm body] & tr1 & Hparse & H).
  injection Hparse as Hparse <-.
  apply bind_ok in H as ([[t sl] dt] & tr1 & Hfields & H).
  injection Hfields as Hfields <-.
  destruct (ReadingTime.calculate_reading_time _) as [w m].
  do 9 inv_lift H. do 2 inv_emit H.
  injection H as <- <-.
  destruct site as [m0|v]; [|done]. simpl in E4.
  destruct (m0 !! "site_name"%string) as [v|] eqn:Hn; [|done].
  injection E4 as <-.
  destruct x3 as [|y|b y]; try done. destruct v as [|n|b n]; try done.
  exists m0, n. repeat split; [done|]. by apply (render_ok L I _ _ _ E7).
Qed.

(** The prelude: nothing happens when the configuration does not load;
    otherwise the output directory is removed if it exists and made
    anew, and nothing is removed after that. *)
Lemma main_prelude_trace tr r tr' :
  main_prelude L I tr = (r, tr') ->
  match load_site L I tr with
  | (inl e, _) => r = inl e /\ tr' = tr
  | (inr _, _) =>
      exists evs,
        tr' = tr ++ (if dist_exists I then [EvRmtree DIST] else [])
                 ++ EvMkdir DIST :: evs
        /\ Forall (fun ev => keeps ev = true) evs
  end.
Proof.
  unfold main_prelude. intros H.
  assert (exists x, load_site L I tr = (x, tr)) as [x Hload].
  { unfold load_site. destruct (site_yml I); by eexists. }
  rewrite Hload. destruct x as [e|site].
  - rewrite (bind_raise _ _ _ _ _ Hload) in H. by injection H as <- <-.
  - rewrite (bind_step _ _ _ _ _ Hload) in H.
    set (tr0 := tr ++ (if dist_exists I then [EvRmtree DIST] else [])).
    assert ((if dist_exists I then emit (EvRmtree DIST) else ret tt) tr
            = (inr tt, tr0)) as Hwipe.
    { unfold tr0. destruct (dist_exists I); [done|].
      unfold ret. by rewrite app_nil_r. }
    rewrite (bind_step _ _ _ _ _ Hwipe) in H.
    rewrite (bind_step _ _ tr0 tt (tr0 ++ [EvMkdir DIST])) in H by done.
    assert (emits_only keeps
              (bind (copy_static I site) (fun _ =>
               bind (build_about L I site) (fun _ => ret site)))) as Hrest.
    { apply only_bind; [apply keeps_copy_static|]. intros _.
      apply only_bind; [apply keeps_build_about|]. intros _. apply only_ret. }
    destruct (Hrest _ _ _ H) as (evs & -> & Hevs).
    exists evs. split; [|done]. unfold tr0. by rewrite <- !app_assoc.
Qed.
End RunKeeps.

Lemma post_fields_title L I fm file_stem t sl dt x :
  post_fields L I fm file_stem = Ok (t, sl, dt) ->
  t = VStr x -> file_stem <> EmptyString -> x <> EmptyString.
Proof.
  unfold post_fields. destruct fm as [m|v]; [|done]. simpl.
  destruct (truthy (default VNone (m !! "slug"%string)));
    destruct (py_or (default VNone (m !! "title"%string)) (VStr file_stem))
      as [|y|b y] eqn:Et; simpl; try done;
    destruct (fromisoformat L _) as [e|d]; simpl; try done;
    intros [= <- _ _]; try done;
    intros [= ->] Hstem; unfold py_or in Et;
    destruct (truthy (default VNone (m !! "title"%string))) eqn:Ht.
  all: try (injection Et as ->; done).
  all: rewrite Et in Ht; simpl in Ht; intros ->; done.
Qed.

End RunMore.

(** X11.  A run removes the previous output exactly when the site
    configuration loads: if [site.yml] is missing or does not load, the
    run raises and nothing has been touched; if it loads, the output
    directory is removed (when it exists) and made anew before anything
    else, and nothing is removed after that, whether the run then
    succeeds or fails. *)
Theorem output_wiped_once
    (L : Lib) (I : Inputs) (tr : list event) (r : result unit)
    (tr' : list event) :
  Build.main L I tr = (r, tr') ->
  match site_yml I with
  | None => r = Raise FileNotFoundError /\ tr' = tr
  | Some text =>
      match safe_load L text with
      | inl e => r = Raise e /\ tr' = tr
      | inr _ =>
          exists evs,
            tr' = tr ++ (if dist_exists I then [EvRmtree Build.DIST] else [])
                     ++ EvMkdir Build.DIST :: evs
            /\ Forall (fun ev => Layout.removes ev = false) evs
      end
  end.
Proof.
  unfold Build.main. intros H.
  destruct (Build.main_prelude L I tr) as [[e|site] tr1] eqn:Hpre.
  - rewrite (BuildFacts.bind_raise _ _ _ _ _ Hpre) in H. injection H as <- <-.
    apply RunMore.main_prelude_trace in Hpre.
    unfold Build.load_site, lift in Hpre.
    destruct (site_yml I) as [text|]; [|by destruct Hpre as [[= ->] ->]].
    destruct (safe_load L text) as [e0|site];
      [by destruct Hpre as [[= ->] ->]|].
    destruct Hpre as (evs & -> & Hevs). exists evs. split; [done|].
    eapply Forall_impl; [exact Hevs|]. intros ev. unfold Layout.keeps.
    by intros ->%negb_true_iff.
  - rewrite (BuildFacts.bind_step _ _ _ _ _ Hpre) in H.
    apply RunMore.main_prelude_trace in Hpre.
    unfold Build.load_site, lift in Hpre.
    destruct (site_yml I) as [text|]; [|by destruct Hpre].
    destruct (safe_load L text) as [e0|site0]; [by destruct Hpre|].
    destruct Hpre as (evs1 & -> & Hevs1).
    assert (Layout.emits_only Layout.keeps
              (bind (Build.build_posts L I site) (fun posts =>
               bind (Build.build_index L I site posts) (fun _ =>
               bind (Build.build_feed L I site posts) (fun _ =>
               emit (EvBuilt (length posts))))))) as Hrest.
    { apply RunMore.only_bind; [apply RunMore.keeps_build_posts|]. intros posts.
      apply RunMore.only_bind; [apply RunMore.keeps_build_index|]. intros _.
      apply RunMore.only_bind; [apply RunMore.keeps_build_feed|]. intros _.
      by apply RunMore.only_emit. }
    destruct (Hrest _ _ _ H) as (evs2 & -> & Hevs2).
    exists (evs1 ++ evs2). split.
    + by rewrite <- !app_assoc.
    + apply Forall_app. split; (eapply Forall_impl; [eassumption|]);
        intros ev; unfold Layout.keeps; by intros ->%negb_true_iff.
Qed.

Lemma output_wiped_once_witness :
  exists evs,
    snd (Build.main Demo.lib Demo.inputs_soon [])
    = [] ++ [EvRmtree Build.DIST] ++ EvMkdir Build.DIST :: evs
    /\ Forall (fun ev => Layout.removes ev = false) evs.
Proof.
  apply (output_wiped_once Demo.lib Demo.inputs_soon []
           (fst (Build.main Demo.lib Demo.inputs_soon []))
           (snd (Build.main Demo.lib Demo.inputs_soon []))).
  by destruct (Build.main Demo.lib Demo.inputs_soon []).
Defined.

Module MainMore.
Import PyStr Build BuildFacts Layout ShapeFacts.

Section RunMain.
Variable L : Lib.
Variable I : Inputs.

(** A run that returns, taken apart. *)
Lemma main_inv tr tr' :
  main L I tr = (inr tt, tr') ->
  exists site tr1 posts tr2 tr3 tr4,
    main_prelude L I tr = (inr site, tr1)
    /\ build_posts L I site tr1 = (inr posts, tr2)
    /\ build_index L I site posts tr2 = (inr tt, tr3)
    /\ build_feed L I site posts tr3 = (inr tt, tr4)
    /\ tr' = tr4 ++ [EvBuilt (length posts)].
Proof.
  unfold main. intros H.
  apply bind_ok in H as (site & tr1 & Hpre & H).
  apply bind_ok in H as (posts & tr2 & Hposts & H).
  apply bind_ok in H as ([] & tr3 & Hindex & H).
  apply bind_ok in H as ([] & tr4 & Hfeed & H).
  injection H as <-.
  by exists site, tr1, posts, tr2, tr3, tr4.
Qed.

End RunMain.
End MainMore.



(** X13.  A run returns only if [site.yml] loads as a mapping that holds
    [site_name] and [author], both static files exist, and the index and
    feed templates exist; with any post file it also needs the post
    template and a [site_name] that is a string. *)
Theorem successful_run_needs
    (L : Lib) (I : Inputs) (tr tr' : list event) :
  Build.main L I tr = (Ok tt, tr') ->
  exists text m,
    site_yml I = Some text
    /\ safe_load L text = Ok (DMap m)
    /\ is_Some (m !! "site_name"%string)
    /\ is_Some (m !! "author"%string)
    /\ static_styles I = true
    /\ static_404 I = true
    /\ is_Some (templates I !! "index.html"%string)
    /\ is_Some (templates I !! "feed.xml"%string)
    /\ (posts_glob I <> [] ->
        is_Some (templates I !! "post.html"%string)
        /\ exists n, m !! "site_name"%string = Some (VStr n)).
Proof.
  intros H.
  destruct (MainMore.main_inv L I _ _ H)
    as (site & tr1 & posts & tr2 & tr3 & tr4
        & Hpre & Hposts & Hindex & Hfeed & ->).
  destruct (ShapeFacts.main_prelude_ok L I _ _ _ Hpre)
    as (text & about_evs & Hyml & Hload & Hcss & H404 & _ & _).
  destruct (ShapeFacts.build_index_ok L I _ _ _ _ Hindex)
    as (m & ctx & html & -> & Hname & Hauthor & Hrender & _ & _).
  destruct (ShapeFacts.build_feed_ok L I _ _ _ _ Hfeed)
    as (ctx' & xml & Hrender' & _ & _).
  exists text, m. repeat split; try done.
  - by apply (ShapeFacts.render_ok L I _ _ _ Hrender).
  - by apply (ShapeFacts.render_ok L I _ _ _ Hrender').
  - destruct (ShapeFacts.build_posts_shape L I _ _ _ _ Hposts)
      as (files & pages & Hfiles & _ & Hall & [(e & f & Hr & _)|[Hlen Hr]]);
      [done|].
    destruct (BuildFacts.sorted_posts_spec I files Hfiles) as [Hperm _].
    rewrite Hlen, firstn_all in Hall.
    destruct Hall as [|[name raw] p files pages Hf _].
    { apply Permutation_nil in Hperm. congruence. }
    destruct (RunMore.build_post_needs L I _ _ _ _ _ _ (Hf []))
      as (m' & n & [= <-] & Hn & Htpl & _).
    done.
  - destruct (ShapeFacts.build_posts_shape L I _ _ _ _ Hposts)
      as (files & pages & Hfiles & _ & Hall & [(e & f & Hr & _)|[Hlen Hr]]);
      [done|].
    destruct (BuildFacts.sorted_posts_spec I files Hfiles) as [Hperm _].
    rewrite Hlen, firstn_all in Hall.
    destruct Hall as [|[name raw] p files pages Hf _].
    { apply Permutation_nil in Hperm. congruence. }
    destruct (RunMore.build_post_needs L I _ _ _ _ _ _ (Hf []))
      as (m' & n & [= <-] & Hn & Htpl & _).
    by exists n.
Qed.

Lemma successful_run_needs_witness :
  exists text m,
    site_yml Demo.inputs = Some text
    /\ safe_load Demo.lib text = Ok (DMap m)
    /\ is_Some (m !! "site_name"%string)
    /\ is_Some (m !! "author"%string)
    /\ static_styles Demo.inputs = true
    /\ static_404 Demo.inputs = true
    /\ is_Some (templates Demo.inputs !! "index.html"%string)
    /\ is_Some (templates Demo.inputs !! "feed.xml"%string)
    /\ (posts_glob Demo.inputs <> [] ->
        is_Some (templates Demo.inputs !! "post.html"%string)
        /\ exists n, m !! "site_name"%string = Some (VStr n)).
Proof.
  apply (successful_run_needs Demo.lib Demo.inputs []
           (snd (Build.main Demo.lib Demo.inputs []))).
  vm_compute. reflexivity.
Defined.



(** ** The order of the directory listing *)

Module ListingFacts.
Import PyStr Build BuildFacts Layout.

Lemma ltb_total a b : ltb a b = false -> ltb b a = false -> a = b.
Proof.
  revert b. induction a as [|x a IH]; intros [|y b]; simpl; try done.
  destruct (N.ltb_spec (code x) (code y)), (N.ltb_spec (code y) (code x));
    try done.
  intros Hab Hba. assert (code x = code y) as Hc by lia.
  unfold code in Hc.
  apply (f_equal ascii_of_N) in Hc. rewrite !ascii_N_embedding in Hc.
  subst y. f_equal. by apply IH.
Qed.

(** Two sorted lists with the same elements are the same list, when
    elements that are each not after the other are equal. *)
Lemma sorted_unique {A} (R : A -> A -> Prop) (l1 l2 : list A) :
  (forall x y, In x l1 -> In y l1 -> R x y -> R y x -> x = y) ->
  StronglySorted R l1 -> StronglySorted R l2 -> Permutation l1 l2 ->
  l1 = l2.
Proof.
  revert l2. induction l1 as [|x l1 IH]; intros l2 Hanti H1 H2 Hp.
  - by apply Permutation_nil in Hp.
  - destruct l2 as [|y l2].
    { symmetry in Hp. by apply Permutation_nil in Hp. }
    apply StronglySorted_inv in H1 as [H1 Hx].
    apply StronglySorted_inv in H2 as [H2 Hy].
    rewrite Forall_forall in Hx, Hy.
    assert (x = y) as <-.
    { assert (In y (x :: l1)) as Hyin
        by (eapply Permutation_in; [symmetry; exact Hp|by left]).
      assert (In x (y :: l2)) as Hxin
        by (eapply Permutation_in; [exact Hp|by left]).
      destruct Hyin as [|Hyin]; [done|].
      destruct Hxin as [|Hxin]; [done|].
      apply Hanti; [by left|by right| |].
      - apply Hx. by apply list_elem_of_In.
      - apply Hy. by apply list_elem_of_In. }
    f_equal. apply IH; [|done|done|by apply Permutation_cons_inv in Hp].
    intros a b Ha Hb. apply Hanti; by right.
Qed.

Lemma same_name_same_file (l : list (string * string)) f g :
  NoDup (map fst l) -> In f l -> In g l -> fst f = fst g -> f = g.
Proof.
  induction l as [|h l IH]; [done|]. simpl.
  intros Hnd. apply NoDup_cons in Hnd as [Hh Hnd].
  assert (forall k, In k l -> fst k <> fst h) as Hother.
  { intros k Hk Heq. apply Hh. rewrite <- Heq.
    apply list_elem_of_In. by apply in_map. }
  intros [<-|Hf] [<-|Hg] Heq; try done.
  - exfalso. by apply (Hother g Hg).
  - exfalso. by apply (Hother f Hf).
  - by apply IH.
Qed.

Lemma sorted_posts_with_posts I ps ps' :
  NoDup (map fst ps) -> Permutation ps ps' ->
  sorted_posts (with_posts I ps) = sorted_posts (with_posts I ps').
Proof.
  intros Hnd Hp.
  destruct (sorted_posts_returns (with_posts I ps)) as [l Hl].
  destruct (sorted_posts_returns (with_posts I ps')) as [l' Hl'].
  rewrite Hl, Hl'. f_equal.
  destruct (sorted_posts_spec _ _ Hl) as [Hperm Hs].
  destruct (sorted_posts_spec _ _ Hl') as [Hperm' Hs'].
  simpl in Hperm, Hperm'.
  assert (Permutation l l') as Hll
    by (rewrite Hperm, Hp; symmetry; exact Hperm').
  eapply sorted_unique; [|exact Hs|exact Hs'|exact Hll].
  intros f g Hf Hg Hfg Hgf.
  apply (same_name_same_file ps).
  - done.
  - by apply (Permutation_in _ Hperm).
  - by apply (Permutation_in _ Hperm).
  - pose proof (ltb_total _ _ Hgf Hfg) as Heq.
    apply (f_equal string_of_list_ascii) in Heq.
    by rewrite !string_of_list_ascii_of_string in Heq.
Qed.

Lemma post_loop_with_posts L I ps site files acc tr :
  post_loop L (with_posts I ps) site files acc tr
  = post_loop L I site files acc tr.
Proof.
  revert acc tr. induction files as [|f files IH]; intros acc tr; [done|].
  simpl. unfold bind.
  change (build_post L (with_posts I ps) site f tr)
    with (build_post L I site f tr).
  destruct (build_post L I site f tr) as [[e|s] tr1]; [done|]. apply IH.
Qed.

Lemma bind_ext {A B} (c c' : M A) (k k' : A -> M B) tr :
  c tr = c' tr -> (forall a tr1, k a tr1 = k' a tr1) ->
  bind c k tr = bind c' k' tr.
Proof.
  intros Hc Hk. unfold bind. rewrite Hc.
  destruct (c' tr) as [[e|a] tr1]; [done|apply Hk].
Qed.

Lemma build_posts_with_posts L I ps ps' site tr :
  NoDup (map fst ps) -> Permutation ps ps' ->
  build_posts L (with_posts I ps) site tr
  = build_posts L (with_posts I ps') site tr.
Proof.
  intros Hnd Hp. unfold build_posts.
  rewrite (sorted_posts_with_posts I ps ps' Hnd Hp).
  apply bind_ext; [done|]. intros files tr1.
  apply bind_ext; [|done].
  by rewrite !post_loop_with_posts.
Qed.

End ListingFacts.

(** X15.  The run does not depend on the order in which the posts
    directory is listed: with file names that are all different, two
    listings of the same files give the same result and the same
    trace. *)
Theorem listing_order_is_irrelevant
    (L : Lib) (I : Inputs) (ps ps' : list (string * string))
    (tr : list event) :
  NoDup (map fst ps) ->
  Permutation ps ps' ->
  Build.main L (Layout.with_posts I ps) tr
  = Build.main L (Layout.with_posts I ps') tr.
Proof.
  intros Hnd Hp. unfold Build.main.
  apply ListingFacts.bind_ext; [reflexivity|]. intros site tr1.
  apply ListingFacts.bind_ext;
    [by apply ListingFacts.build_posts_with_posts|].
  intros posts tr2. reflexivity.
Qed.

Lemma listing_order_is_irrelevant_witness :
  Build.main Demo.lib
    (Layout.with_posts Demo.inputs
       [("c.md", Demo.post_blank); ("a.md", Demo.post_hello);
        ("b.md", Demo.post_june)]%string) []
  = Build.main Demo.lib
      (Layout.with_posts Demo.inputs
         [("b.md", Demo.post_june); ("c.md", Demo.post_blank);
          ("a.md", Demo.post_hello)]%string) [].
Proof.
  apply (listing_order_is_irrelevant Demo.lib Demo.inputs).
  - repeat constructor; rewrite ?list_elem_of_In; simpl; intuition discriminate.
  - symmetry.
    exact (Permutation_cons_append
             [("c.md", Demo.post_blank); ("a.md", Demo.post_hello)]%string
             ("b.md", Demo.post_june)%string).
Defined.

(** X16.  Every summary the post builder returns has a non-empty title,
    when the file names are non-empty, and its three date strings are
    the renderings of its own date. *)
Theorem summaries_well_formed
    (L : Lib) (I : Inputs) (site : document)
    (tr : list event) (posts : list summary) (tr' : list event) :
  (forall f, In f (posts_glob I) -> fst f <> EmptyString) ->
  Build.build_posts L I site tr = (Ok posts, tr') ->
  Forall (fun s =>
            title s <> EmptyString
            /\ iso_date s = dt_iso_date (date s)
            /\ human_date s = dt_human (date s)
            /\ rfc2822 s = dt_rfc2822 (date s)) posts.
Proof.
  intros Hnames H.
  destruct (ShapeFacts.build_posts_shape L I _ _ _ _ H)
    as (files & pages & Hfiles & _ & Hall & [(e & f & Hr & _)|[Hlen Hr]]);
    [done|].
  destruct (BuildFacts.sorted_posts_spec I files Hfiles) as [Hperm _].
  rewrite Hlen, firstn_all in Hall.
  assert (Permutation posts (map fst pages)) as Hp.
  { apply (PySortFacts.sort_reverse_spec dt_lt dt_ltb date
             OrderFacts.dt_lt_ltb OrderFacts.dt_ltb_asym
             OrderFacts.dt_ltb_cotrans
             (mk_datetime 0 false EmptyString EmptyString EmptyString)
             (map fst pages) posts). by symmetry. }
  rewrite Hp. clear Hp Hr Hlen.
  assert (forall f, In f files -> fst f <> EmptyString) as Hnames'.
  { intros f Hf. apply Hnames. by apply (Permutation_in _ Hperm). }
  clear Hperm Hfiles Hnames.
  induction Hall as [|[name raw] p files pages Hf _ IH]; simpl; [done|].
  constructor; [|apply IH; intros f Hin; apply Hnames'; by right].
  specialize (Hf []).
  destruct (ShapeFacts.build_post_ok L I _ _ _ _ _ _ Hf)
    as (fm & body & t & html & _ & Hfields & Ht & _).
  destruct (RunMore.build_post_needs L I _ _ _ _ _ _ Hf)
    as (_ & _ & _ & _ & _ & Hiso & Hhuman & Hrfc).
  repeat split; try done.
  apply (RunMore.post_fields_title L I _ _ _ _ _ _ Hfields Ht).
  apply SlugMore.stem_not_empty. apply (Hnames' (name, raw)). by left.
Qed.

Lemma summaries_well_formed_witness :
  Forall (fun s =>
            title s <> EmptyString
            /\ iso_date s = dt_iso_date (date s)
            /\ human_date s = dt_human (date s)
            /\ rfc2822 s = dt_rfc2822 (date s)) Demo.built_posts.
Proof.
  apply (summaries_well_formed Demo.lib Demo.inputs Demo.site []
           Demo.built_posts (snd Demo.built)).
  - intros f [<-|[<-|[<-|[]]]]; discriminate.
  - vm_compute. reflexivity.
Defined.

(** ** Posts without front matter *)

(** X17.  A post file that does not open with the delimiter is built
    from the fallbacks alone: its title is the stem of the file name,
    its slug the slug of that stem, its date the date of the run; the
    loader is not consulted. *)
Theorem post_without_front_matter
    (L : Lib) (I : Inputs) (raw file_stem : string) :
  PyStr.startswith (list_ascii_of_string raw) FrontMatter.delimiter = false ->
  rbind (Build.parse_frontmatter L raw)
        (fun parsed => Build.post_fields L I (fst parsed) file_stem)
  = rbind (fromisoformat L (today_iso I))
          (fun dt => Ok (VStr file_stem, VStr (Slug.slugify file_stem), dt)).
Proof.
  intros H. unfold Build.parse_frontmatter.
  rewrite (FrontMatterFacts.parse_plain (safe_load L) raw H). simpl.
  unfold Build.post_fields. simpl. by rewrite !lookup_empty.
Qed.

Lemma post_without_front_matter_witness :
  rbind (Build.parse_frontmatter Demo.lib "Just text.")
        (fun parsed => Build.post_fields Demo.lib Demo.inputs (fst parsed) "notes")
  = rbind (fromisoformat Demo.lib (today_iso Demo.inputs))
          (fun dt => Ok (VStr "notes", VStr (Slug.slugify "notes"), dt)).
Proof.
  apply (post_without_front_matter Demo.lib Demo.inputs "Just text." "notes").
  reflexivity.
Defined.
